(** * convert_movies: a shallow embedding of [convert_movies.py]

    The script reads a JSON array of movie entries, derives a slug for each
    one, transliterates and splits the director string, and writes the
    converted records.  This file embeds the four helper functions
    ([transliterate], [slugify], [parse_int], [parse_directors]) and the
    module-level loop, and proves the properties of the specification
    against them.

    Conventions of the embedding:
    - a Python [str] is the list of its code points ([list N]);
    - a Python [int] is a [Z];
    - a JSON scalar is a [value]; JSON floats, arrays and objects as field
      values are outside the model;
    - an entry (a JSON object) is a [gmap] from keys to values, and
      [dict.get] is the lookup that answers [None] for a missing key;
    - a Python exception is the [Raise] case of [result];
    - the limit of the interpreter on the decimal digits of an integer that
      is read from a text or written to one is its default, 4300. *)

From Stdlib Require Import ZArith NArith List Ascii String Bool Lia.
From Stdlib Require DecimalPos DecimalZ.
From stdpp Require Import base option list gmap.

Set Default Proof Using "Type".

(** ** Strings as lists of code points *)

Abbreviation str := (list N).

(** [u "abc"] is the Python literal ["abc"] (ASCII only). *)
Definition u (s : string) : str :=
  map N_of_ascii (list_ascii_of_string s).

#[global] Arguments u : simpl never.

Definition is_ascii (c : N) : bool := (c <? 128)%N.

(** ** Python values and exceptions *)

Inductive value : Type :=
| VNone
| VBool (b : bool)
| VInt (z : Z)
| VStr (s : str).

Inductive exn : Type := AttributeError | TypeError | ValueError.

Inductive result (A : Type) : Type :=
| Ok (a : A)
| Raise (e : exn).
Arguments Ok {A} a.
Arguments Raise {A} e.

#[global] Instance result_ret : MRet result := λ A a, Ok a.
#[global] Instance result_bind : MBind result := λ A B f m,
  match m with Ok a => f a | Raise e => Raise e end.

#[global] Instance value_eq_dec : EqDecision value.
Proof. solve_decision. Defined.

(** Truth value of an object: [None], [False], [0] and [""] are false. *)
Definition truthy (v : value) : bool :=
  match v with
  | VNone => false
  | VBool b => b
  | VInt z => negb (z =? 0)%Z
  | VStr s => match s with [] => false | _ :: _ => true end
  end.

(** [a or b]. *)
Definition py_or (a b : value) : value := if truthy a then a else b.

(** [d.get(k)]: the value under [k], [None] when the key is missing. *)
Definition dict_get (d : gmap str value) (k : str) : value :=
  default VNone (d !! k).

(** ** The transliteration table *)

Module Translit.

(** [CYRILLIC_MAP], in the order of the source. *)
Definition CYRILLIC_MAP : list (str * str) :=
  [ ([0x0410%N], u "A"); ([0x0430%N], u "a");
    ([0x0411%N], u "B"); ([0x0431%N], u "b");
    ([0x0412%N], u "V"); ([0x0432%N], u "v");
    ([0x0413%N], u "G"); ([0x0433%N], u "g");
    ([0x0414%N], u "D"); ([0x0434%N], u "d");
    ([0x0415%N], u "E"); ([0x0435%N], u "e");
    ([0x0401%N], u "Yo"); ([0x0451%N], u "yo");
    ([0x0416%N], u "Zh"); ([0x0436%N], u "zh");
    ([0x0417%N], u "Z"); ([0x0437%N], u "z");
    ([0x0418%N], u "I"); ([0x0438%N], u "i");
    ([0x0419%N], u "Y"); ([0x0439%N], u "y");
    ([0x041a%N], u "K"); ([0x043a%N], u "k");
    ([0x041b%N], u "L"); ([0x043b%N], u "l");
    ([0x041c%N], u "M"); ([0x043c%N], u "m");
    ([0x041d%N], u "N"); ([0x043d%N], u "n");
    ([0x041e%N], u "O"); ([0x043e%N], u "o");
    ([0x041f%N], u "P"); ([0x043f%N], u "p");
    ([0x0420%N], u "R"); ([0x0440%N], u "r");
    ([0x0421%N], u "S"); ([0x0441%N], u "s");
    ([0x0422%N], u "T"); ([0x0442%N], u "t");
    ([0x0423%N], u "U"); ([0x0443%N], u "u");
    ([0x0424%N], u "F"); ([0x0444%N], u "f");
    ([0x0425%N], u "Kh"); ([0x0445%N], u "kh");
    ([0x0426%N], u "Ts"); ([0x0446%N], u "ts");
    ([0x0427%N], u "Ch"); ([0x0447%N], u "ch");
    ([0x0428%N], u "Sh"); ([0x0448%N], u "sh");
    ([0x0429%N], u "Shch"); ([0x0449%N], u "shch");
    ([0x042a%N], []); ([0x044a%N], []);
    ([0x042b%N], u "Y"); ([0x044b%N], u "y");
    ([0x042c%N], []); ([0x044c%N], []);
    ([0x042d%N], u "E"); ([0x044d%N], u "e");
    ([0x042e%N], u "Yu"); ([0x044e%N], u "yu");
    ([0x042f%N], u "Ya"); ([0x044f%N], u "ya");
    ([0x04d8%N], u "A"); ([0x04d9%N], u "a");
    ([0x04e8%N], u "O"); ([0x04e9%N], u "o") ].

(** [str.maketrans(d)] for a dictionary whose keys are one-character strings:
    each key is replaced by its ordinal.  A later pair of the literal
    overrides an earlier one with the same key. *)
Fixpoint maketrans (d : list (str * str)) (acc : gmap N str) : gmap N str :=
  match d with
  | [] => acc
  | (k, v) :: rest =>
      match k with
      | [c] => maketrans rest (<[c := v]> acc)
      | _ => maketrans rest acc
      end
  end.

Definition TRANS_TABLE : gmap N str := maketrans CYRILLIC_MAP ∅.

(** [text.translate(table)]: a code point with an entry in the table is
    replaced by the entry, any other code point is kept. *)
Fixpoint translate (table : gmap N str) (text : str) : str :=
  match text with
  | [] => []
  | c :: rest =>
      match table !! c with
      | Some r => r ++ translate table rest
      | None => c :: translate table rest
      end
  end.

(** [transliterate(text)].  The attribute [translate] exists on strings
    only. *)
Definition transliterate (text : value) : result str :=
  if negb (truthy text) then Ok []
  else match text with
       | VStr s => Ok (translate TRANS_TABLE s)
       | _ => Raise AttributeError
       end.

End Translit.

(** ** The Unicode character database

    [unicodedata.normalize], and the decimal digits that [int] accepts
    beyond ASCII, are given by the tables of the Unicode character database,
    which are not part of the program.  They are a parameter of the
    embedding, with two laws: compatibility decomposition leaves a pure
    ASCII string as it is (no ASCII code point decomposes and none is a
    combining mark), and the value of a decimal digit is at most 9. *)

Class UnicodeData : Type := {
  nfkd : str → str;
  decimal : N → option N;
  nfkd_ascii : ∀ s, forallb is_ascii s = true → nfkd s = s;
  decimal_digit : ∀ c d, decimal c = Some d → (d <= 9)%N
}.

(** A database that knows nothing beyond ASCII. *)
#[program] Definition ascii_only : UnicodeData :=
  {| nfkd := λ s, s; decimal := λ _, None |}.
Next Obligation. reflexivity. Qed.
Next Obligation. discriminate. Qed.

(** ** Built-in string operations *)

Module Py.

(** [str.isspace] for one code point, the set that [str.strip()] removes. *)
Definition isspace (c : N) : bool :=
  ((9 <=? c) && (c <=? 13) || (28 <=? c) && (c <=? 32)
   || (c =? 0x85) || (c =? 0xA0) || (c =? 0x1680)
   || (0x2000 <=? c) && (c <=? 0x200A)
   || (c =? 0x2028) || (c =? 0x2029) || (c =? 0x202F)
   || (c =? 0x205F) || (c =? 0x3000))%N.

(** Drop the longest prefix, resp. suffix, of code points in [p]. *)
Fixpoint lstrip (p : N → bool) (s : str) : str :=
  match s with
  | [] => []
  | c :: rest => if p c then lstrip p rest else s
  end.

Definition rstrip (p : N → bool) (s : str) : str :=
  rev (lstrip p (rev s)).

(** [s.strip()]. *)
Definition strip (s : str) : str := rstrip isspace (lstrip isspace s).

(** [c in chars]. *)
Definition mem (chars : str) (c : N) : bool :=
  existsb (N.eqb c) chars.

(** [s.strip(chars)]. *)
Definition strip_chars (chars : str) (s : str) : str :=
  rstrip (mem chars) (lstrip (mem chars) s).

(** [s.lower()] on ASCII text: the letters A-Z move to a-z.  The program
    applies it to the result of [decode("ascii")] only. *)
Definition lower_char (c : N) : N :=
  if ((65 <=? c) && (c <=? 90))%N then (c + 32)%N else c.

Definition lower (s : str) : str := map lower_char s.

(** [s.encode("ascii", "ignore").decode("ascii")]: the code points that do
    not encode are dropped; decoding the bytes gives them back unchanged. *)
Definition encode_ascii_ignore (s : str) : list N := List.filter is_ascii s.
Definition decode_ascii (b : list N) : str := b.

(** [old] is a prefix of [s]. *)
Fixpoint startswith (s old : str) : bool :=
  match old, s with
  | [], _ => true
  | _ :: _, [] => false
  | a :: old', c :: s' => (a =? c)%N && startswith s' old'
  end.

(** [s.replace(old, new)] for a non-empty [old]: scan from the left, and at
    each occurrence of [old] emit [new] and jump behind the occurrence.
    [skip] counts the code points of the current occurrence that are still
    to be jumped over. *)
Fixpoint replace_from (old new : str) (skip : nat) (s : str) : str :=
  match s with
  | [] => []
  | c :: rest =>
      match skip with
      | S k => replace_from old new k rest
      | O =>
          if startswith s old
          then new ++ replace_from old new (length old - 1) rest
          else c :: replace_from old new 0 rest
      end
  end.

Definition replace (old new : str) (s : str) : str :=
  replace_from old new 0 s.

(** [s.split(sep)] for a one-character separator: the pieces between the
    separators, empty pieces included; [cur] is the piece being read, in
    reverse. *)
Fixpoint split_from (sep : N) (cur : str) (s : str) : list str :=
  match s with
  | [] => [rev cur]
  | c :: rest =>
      if (c =? sep)%N then rev cur :: split_from sep [] rest
      else split_from sep (c :: cur) rest
  end.

Definition split (sep : N) (s : str) : list str := split_from sep [] s.

(** [re.sub(r"[^a-z0-9]+", "-", s)], generalised to a class [cls] of code
    points and a replacement [repl]: every maximal run of code points in the
    class is one match and is replaced by [repl].  [inside] tells that the
    scan is inside a match whose replacement has been emitted already. *)
Fixpoint sub_runs (cls : N → bool) (repl : str) (inside : bool) (s : str) : str :=
  match s with
  | [] => []
  | c :: rest =>
      if cls c then
        if inside then sub_runs cls repl true rest
        else repl ++ sub_runs cls repl true rest
      else c :: sub_runs cls repl false rest
  end.

Definition is_digit (c : N) : bool := ((48 <=? c) && (c <=? 57))%N.
Definition is_lower (c : N) : bool := ((97 <=? c) && (c <=? 122))%N.

(** The class [[a-z0-9]] and its complement [[^a-z0-9]]. *)
Definition alnum (c : N) : bool := is_lower c || is_digit c.
Definition not_alnum (c : N) : bool := negb (alnum c).

(** [str(n)] for an integer: the decimal digits, after a minus sign for a
    negative number. *)
Fixpoint uint_chars (d : Decimal.uint) : str :=
  match d with
  | Decimal.Nil => []
  | Decimal.D0 d => 48%N :: uint_chars d
  | Decimal.D1 d => 49%N :: uint_chars d
  | Decimal.D2 d => 50%N :: uint_chars d
  | Decimal.D3 d => 51%N :: uint_chars d
  | Decimal.D4 d => 52%N :: uint_chars d
  | Decimal.D5 d => 53%N :: uint_chars d
  | Decimal.D6 d => 54%N :: uint_chars d
  | Decimal.D7 d => 55%N :: uint_chars d
  | Decimal.D8 d => 56%N :: uint_chars d
  | Decimal.D9 d => 57%N :: uint_chars d
  end.

Definition str_of_int (z : Z) : str :=
  match Z.to_int z with
  | Decimal.Pos d => uint_chars d
  | Decimal.Neg d => 45%N :: uint_chars d
  end.

(** The limit on the decimal digits of an integer that is written or read,
    [sys.int_info.default_max_str_digits]: [str(n)] for a longer [n] and
    [int(s)] for a longer [s] raise [ValueError]. *)
Definition int_max_str_digits : N := 4300.

(** The number of decimal digits of [z], its sign apart. *)
Definition int_digits (z : Z) : N :=
  N.of_nat (length (str_of_int (Z.abs z))).

(** [str(v)]: for an integer within the limit on its digits. *)
Definition str_of (v : value) : result str :=
  match v with
  | VNone => Ok (u "None")
  | VBool true => Ok (u "True")
  | VBool false => Ok (u "False")
  | VInt z =>
      if (int_max_str_digits <? int_digits z)%N then Raise ValueError
      else Ok (str_of_int z)
  | VStr s => Ok s
  end.

(** *** [int(s)] for a string, base ten

    As CPython does it.  A string with a code point beyond ASCII is first
    rewritten: a Unicode space becomes a blank, a Unicode decimal digit its
    ASCII digit, and the rewriting stops with a question mark at the first
    code point that is neither.  The ASCII text is then read: blanks, an
    optional sign, digits with single underscores between them, blanks.
    The digits of the run are counted, leading zeros included and the
    underscores left out, and more than [int_max_str_digits] of them raise
    [ValueError]. *)

Section Int.
Context `{UnicodeData}.

Fixpoint to_ascii_decimal (s : str) : str :=
  match s with
  | [] => []
  | ch :: rest =>
      if (ch <? 127)%N then ch :: to_ascii_decimal rest
      else if isspace ch then 32%N :: to_ascii_decimal rest
      else match (if is_ascii ch then None else decimal ch) with
           | Some d => (48 + d)%N :: to_ascii_decimal rest
           | None => [63%N]
           end
  end.

(** The blanks of the C locale, which the reader of the ASCII text skips. *)
Definition c_isspace (c : N) : bool :=
  ((9 <=? c) && (c <=? 13) || (c =? 32))%N.

(** The run of digits and underscores at the head of [p]: its value, its
    length and what follows it; nothing when an underscore follows an
    underscore or ends the run.  [prev] is the code point read before. *)
Fixpoint scan_digits (p : str) (prev : N) (len : nat) (acc : Z)
  : option (Z * nat * str) :=
  match p with
  | [] => if (prev =? 95)%N then None else Some (acc, len, [])
  | c :: p' =>
      if is_digit c then
        scan_digits p' c (S len) (10 * acc + Z.of_N (c - 48))
      else if (c =? 95)%N then
        if (prev =? 95)%N then None else scan_digits p' c (S len) acc
      else if (prev =? 95)%N then None else Some (acc, len, p)
  end.

Definition long_from_string (s : str) : result Z :=
  let p := lstrip c_isspace s in
  let '(sign, p) :=
    match p with
    | c :: p' =>
        if (c =? 43)%N then (1%Z, p')
        else if (c =? 45)%N then ((-1)%Z, p')
        else (1%Z, p)
    | [] => (1%Z, p)
    end in
  if startswith p [95%N] then Raise ValueError
  else
    match scan_digits p 0 0 0 with
    | None => Raise ValueError
    | Some (n, len, rest) =>
        let digits := N.of_nat (length (List.filter is_digit (take len p))) in
        if (int_max_str_digits <? digits)%N then Raise ValueError
        else
          match len, lstrip c_isspace rest with
          | S _, [] => Ok (sign * n)%Z
          | _, _ => Raise ValueError
          end
    end.

Definition int_of_str (s : str) : result Z :=
  long_from_string (if forallb is_ascii s then s else to_ascii_decimal s).

End Int.

End Py.

(** ** The functions of the program *)

Section Program.
Context `{UnicodeData}.
Import Translit.

(** [slugify(title, year)].  The f-string writes the year with
    [Py.str_of_int]: the years that the loop passes are results of
    [parse_int], which are within the limit on the digits of an integer. *)
Definition slugify (title : str) (year : Z) : str :=
  let title_or_empty := match title with [] => [] | _ :: _ => title end in
  let ascii_title :=
    Py.decode_ascii (Py.encode_ascii_ignore (nfkd title_or_empty)) in
  let ascii_title :=
    Py.strip_chars (u "-")
      (Py.sub_runs Py.not_alnum (u "-") false (Py.lower ascii_title)) in
  let ascii_title :=
    match ascii_title with [] => u "film" | _ :: _ => ascii_title end in
  if negb (year =? 0)%Z
  then ascii_title ++ u "-" ++ Py.str_of_int year
  else ascii_title.

(** [parse_int(value)]: both [str] and [int] are inside the [try], and the
    [except] clause catches [TypeError] and [ValueError] only. *)
Definition parse_int (v : value) : result Z :=
  match s ← Py.str_of v; Py.int_of_str s with
  | Ok n => Ok n
  | Raise TypeError | Raise ValueError => Ok 0%Z
  | Raise e => Raise e
  end.

(** [parse_directors(raw)]. *)
Definition parse_directors (raw : value) : result (list str) :=
  cleaned ← transliterate (py_or raw (VStr []));
  let cleaned :=
    fold_left (λ cleaned token, Py.replace token (u ",") cleaned)
      [u " & "; u " and "; u ";"; u "/"; u "|"] cleaned in
  let parts :=
    map (λ part, Py.strip_chars [32; 9; 13; 10; 46]%N part)
      (Py.split 44%N cleaned) in
  Ok (List.filter (λ part, truthy (VStr part)) parts).

(** *** The module-level loop *)

(** An output record, with the keys of the dictionary literal. *)
Record movie : Type := {
  slug : str;
  title : str;
  releaseYear : Z;
  registryYear : Z;
  directors : list str;
  cast : list str;
  runtimeMinutes : Z;
  genres : list str;
  logline : str;
  summary : str;
  whyImportant : str;
  watchUrl : str;
  image : str
}.

(** The dictionary literal of [movies.append]: five computed fields, the
    others fixed. *)
Definition output_record (slug title : str) (release_year registry_year : Z)
    (directors : list str) : movie :=
  {| slug := slug;
     title := title;
     releaseYear := release_year;
     registryYear := registry_year;
     directors := directors;
     cast := [];
     runtimeMinutes := 0;
     genres := [];
     logline := [];
     summary := [];
     whyImportant := [];
     watchUrl := [];
     image := [] |}.

(** The two module-level variables that the loop updates. *)
Record state : Type := {
  movies : list movie;
  slug_counts : gmap str Z
}.

Definition initial : state := {| movies := []; slug_counts := ∅ |}.

(** [v.strip()]: only a string has the method. *)
Definition strip_method (v : value) : result str :=
  match v with
  | VStr s => Ok (Py.strip s)
  | _ => Raise AttributeError
  end.

(** The operand of [.strip()] in the first line of the loop body. *)
Definition title_operand (entry : gmap str value) : value :=
  py_or (py_or (dict_get entry (u "originalName")) (dict_get entry (u "name")))
        (VStr []).

(** One pass through the loop body; [continue] leaves the state as it is. *)
Definition body (entry : gmap str value) (st : state) : result state :=
  title ← strip_method (title_operand entry);
  release_year ← parse_int (dict_get entry (u "yearProduced"));
  if negb (truthy (VStr title)) then Ok st
  else
    let base_slug := slugify title release_year in
    let occurrence := default 0%Z (slug_counts st !! base_slug) in
    let counts := <[base_slug := (occurrence + 1)%Z]> (slug_counts st) in
    let slug :=
      if (occurrence =? 0)%Z then base_slug
      else base_slug ++ u "-" ++ Py.str_of_int (occurrence + 1) in
    registry_year ← parse_int (dict_get entry (u "yearAdded"));
    directors ← parse_directors (dict_get entry (u "director"));
    Ok {| movies := movies st ++
            [ output_record slug title release_year registry_year directors ];
          slug_counts := counts |}.

(** [for entry in source: ...] *)
Fixpoint loop (source : list (gmap str value)) (st : state) : result state :=
  match source with
  | [] => Ok st
  | entry :: rest => st' ← body entry st; loop rest st'
  end.

(** The list [movies] when the loop has finished. *)
Definition convert (source : list (gmap str value)) : result (list movie) :=
  st ← loop source initial; Ok (movies st).

End Program.

(** ** Reference algorithms, in the words of the specification

    Each definition of this module is written from the prose of the
    specification, not from the code; the theorems below compare them with
    the functions of the program. *)

Module Ref.

(** The image of one code point under the fixed table: the Latin sequence
    of the pair that has the code point as its key, the code point itself
    when there is no such pair. *)
Definition table_image (c : N) : str :=
  match List.find (λ kv, bool_decide (kv.1 = [c])) Translit.CYRILLIC_MAP with
  | Some kv => kv.2
  | None => [c]
  end.

Definition transliterate (text : str) : str :=
  concat (map table_image text).

(** The text cut into its maximal runs of code points inside, resp. outside,
    the class; each run carries the side it is on. *)
Fixpoint runs (cls : N → bool) (s : str) : list (bool * str) :=
  match s with
  | [] => []
  | c :: rest =>
      match runs cls rest with
      | (b, r) :: more =>
          if Bool.eqb (cls c) b then (b, c :: r) :: more
          else (cls c, [c]) :: (b, r) :: more
      | [] => [(cls c, [c])]
      end
  end.

(** Every maximal run of code points outside [[a-z0-9]] becomes one
    hyphen. *)
Definition hyphenate (s : str) : str :=
  concat (map (λ br : bool * str, if br.1 then [45%N] else br.2)
              (runs Py.not_alnum s)).

(** Trimming the code points of a set at the left, at the right and at both
    ends. *)
Fixpoint leading (p : N → bool) (s : str) : nat :=
  match s with
  | c :: rest => if p c then S (leading p rest) else O
  | [] => O
  end.

Definition ltrim (p : N → bool) (s : str) : str := drop (leading p s) s.

Fixpoint rtrim (p : N → bool) (s : str) : str :=
  match s with
  | [] => []
  | c :: rest =>
      match rtrim p rest with
      | [] => if p c then [] else [c]
      | kept => c :: kept
      end
  end.

Definition trim (p : N → bool) (s : str) : str := rtrim p (ltrim p s).

Definition hyphen (c : N) : bool := (c =? 45)%N.

(** Section 4.2, steps 1 to 4. *)
Definition slugify `{UnicodeData} (title : str) (year : Z) : str :=
  let step1 := List.filter is_ascii (nfkd title) in
  let step2 := trim hyphen (hyphenate (map Py.lower_char step1)) in
  let step3 := if bool_decide (step2 = []) then u "film" else step2 in
  if bool_decide (year = 0%Z) then step3
  else step3 ++ [45%N] ++ Py.str_of_int year.

(** Replacing the occurrences of a literal substring, from the left;
    [fuel] bounds the number of steps. *)
Fixpoint replace_all (fuel : nat) (old new : str) (s : str) : str :=
  match fuel with
  | O => s
  | S fuel' =>
      if bool_decide (old `prefix_of` s)
      then new ++ replace_all fuel' old new (drop (length old) s)
      else match s with
           | [] => []
           | c :: rest => c :: replace_all fuel' old new rest
           end
  end.

Definition comma : str := [44%N].

(** The five delimiters, each replaced by a comma, in sequence. *)
Definition normalize_delimiters (s : str) : str :=
  let sub old t := replace_all (S (length t)) old comma t in
  sub (u "|") (sub (u "/") (sub (u ";") (sub (u " and ") (sub (u " & ") s)))).

(** The pieces between the commas. *)
Definition split_commas (s : str) : list str :=
  foldr (λ c pieces,
           if bool_decide (c = 44%N) then [] :: pieces
           else match pieces with
                | piece :: more => (c :: piece) :: more
                | [] => [[c]]
                end)
        [[]] s.

(** The white space that the director parser strips: blank, tab, carriage
    return, line feed. *)
Definition blank (c : N) : bool :=
  bool_decide (c ∈ [32; 9; 13; 10]%N).

Definition period (c : N) : bool := (c =? 46)%N.

Definition blank_or_period (c : N) : bool := blank c || period c.

(** Section 4.3 as it is written: white space is stripped at both ends of
    a piece, periods at its end only. *)
Definition parse_directors_as_written (raw : str) : list str :=
  let pieces := split_commas (normalize_delimiters (transliterate raw)) in
  let stripped := map (λ piece, rtrim blank_or_period (ltrim blank piece)) pieces in
  List.filter (λ piece, negb (bool_decide (piece = []))) stripped.

(** Section 4.3 with blanks and periods stripped at both ends of a
    piece. *)
Definition parse_directors (raw : str) : list str :=
  let pieces := split_commas (normalize_delimiters (transliterate raw)) in
  let stripped := map (trim blank_or_period) pieces in
  List.filter (λ piece, negb (bool_decide (piece = []))) stripped.

End Ref.

(** ** The pattern of a slug *)

Module Regex.

Inductive regex : Type :=
| Void
| Eps
| Class (p : N → bool)
| Cat (r1 r2 : regex)
| Alt (r1 r2 : regex)
| Star (r : regex).

Definition Plus (r : regex) : regex := Cat r (Star r).
Definition Opt (r : regex) : regex := Alt Eps r.
Definition Chr (c : N) : regex := Class (N.eqb c).

Fixpoint nullable (r : regex) : bool :=
  match r with
  | Void => false
  | Eps => true
  | Class _ => false
  | Cat r1 r2 => nullable r1 && nullable r2
  | Alt r1 r2 => nullable r1 || nullable r2
  | Star _ => true
  end.

(** The derivative of [r] by the code point [c]. *)
Fixpoint deriv (c : N) (r : regex) : regex :=
  match r with
  | Void => Void
  | Eps => Void
  | Class p => if p c then Eps else Void
  | Cat r1 r2 =>
      if nullable r1 then Alt (Cat (deriv c r1) r2) (deriv c r2)
      else Cat (deriv c r1) r2
  | Alt r1 r2 => Alt (deriv c r1) (deriv c r2)
  | Star r1 => Cat (deriv c r1) (Star r1)
  end.

(** [re.fullmatch(r, s) is not None]. *)
Fixpoint fullmatch (r : regex) (s : str) : bool :=
  match s with
  | [] => nullable r
  | c :: rest => fullmatch (deriv c r) rest
  end.

(** The language of a regular expression. *)
Inductive lang : regex → str → Prop :=
| lang_eps : lang Eps []
| lang_class p c : p c = true → lang (Class p) [c]
| lang_cat r1 r2 s1 s2 : lang r1 s1 → lang r2 s2 → lang (Cat r1 r2) (s1 ++ s2)
| lang_alt_l r1 r2 s : lang r1 s → lang (Alt r1 r2) s
| lang_alt_r r1 r2 s : lang r2 s → lang (Alt r1 r2) s
| lang_star_nil r : lang (Star r) []
| lang_star_cons r s1 s2 :
    lang r s1 → lang (Star r) s2 → lang (Star r) (s1 ++ s2).

(** [[a-z0-9]+(-[a-z0-9]+)*]: words joined by single hyphens. *)
Definition words : regex :=
  Cat (Plus (Class Py.alnum))
      (Star (Cat (Chr 45) (Plus (Class Py.alnum)))).

(** [[a-z0-9]+(-[a-z0-9]+)*(-N)?], the suffix [N] being a decimal
    number. *)
Definition slug_pattern : regex :=
  Cat words (Opt (Cat (Chr 45) (Plus (Class Py.is_digit)))).


(** The shape of a slug, as two scans.  [spaced after s]: [s] has nothing
    but hyphens and code points of [[a-z0-9]], and no hyphen next to a
    hyphen ([after]: a hyphen precedes [s]).  [joined inside s]: [s] is a
    sequence of non-empty words over [[a-z0-9]] joined by single hyphens
    ([inside]: a code point of a word precedes [s]). *)
Fixpoint spaced (after : bool) (s : str) : bool :=
  match s with
  | [] => true
  | c :: rest =>
      if Py.alnum c then spaced false rest
      else (c =? 45)%N && negb after && spaced true rest
  end.

Fixpoint joined (inside : bool) (s : str) : bool :=
  match s with
  | [] => inside
  | c :: rest =>
      if Py.alnum c then joined true rest
      else (c =? 45)%N && inside && joined false rest
  end.

End Regex.

(** ** The disambiguation scheme *)

Section Scheme.
Context `{UnicodeData}.

(** The base slug of an output record: the slug of its title and release
    year, before disambiguation. *)
Definition base_slug (m : movie) : str := slugify (title m) (releaseYear m).

(** How often [b] occurs in a list of base slugs. *)
Definition occurrences (b : str) (l : list str) : nat :=
  length (List.filter (λ x, bool_decide (x = b)) l).

(** The slug of the [n]-th record with base slug [b], counting from 1. *)
Definition nth_slug (b : str) (n : nat) : str :=
  if (n =? 1)%nat then b else b ++ u "-" ++ Py.str_of_int (Z.of_nat n).

(** What an output record owes to the entry it was built from. *)
Definition built_from (e : gmap str value) (m : movie) : Prop :=
  strip_method (title_operand e) = Ok (title m)
  ∧ title m ≠ []
  ∧ parse_int (dict_get e (u "yearProduced")) = Ok (releaseYear m)
  ∧ parse_int (dict_get e (u "yearAdded")) = Ok (registryYear m)
  ∧ parse_directors (dict_get e (u "director")) = Ok (directors m).

(** The slug that the loop body gives to a record with base slug [b] when
    the counters are [counts]. *)
Definition assigned (counts : gmap str Z) (b : str) : str :=
  let occurrence := default 0%Z (counts !! b) in
  if (occurrence =? 0)%Z then b
  else b ++ u "-" ++ Py.str_of_int (occurrence + 1).

(** The state of the loop follows the occurrence counter scheme: the
    counter of a base slug is the number of records that have it, and the
    slug of a record is fixed by the number of records before it that have
    the same base slug. *)
Definition follows_scheme (st : state) : Prop :=
  (∀ b, default 0%Z (slug_counts st !! b)
        = Z.of_nat (occurrences b (map base_slug (movies st))))
  ∧ (∀ i m, movies st !! i = Some m →
       slug m = nth_slug (base_slug m)
                  (S (occurrences (base_slug m)
                        (map base_slug (take i (movies st)))))).

End Scheme.

(** A name that gives no title: the key is missing, or holds [null] or a
    string of white space only, the empty string included. *)
Definition blank_name (o : option value) : bool :=
  match o with
  | None | Some VNone => true
  | Some (VStr s) => forallb Py.isspace s
  | Some _ => false
  end.

(** Entries whose title and years are ASCII text or no text at all: for
    them the Unicode database is not consulted. *)
Definition ascii_value (v : value) : bool :=
  match v with
  | VStr s => forallb is_ascii s
  | _ => true
  end.

Definition ascii_entry (e : gmap str value) : bool :=
  ascii_value (title_operand e)
  && ascii_value (dict_get e (u "yearProduced"))
  && ascii_value (dict_get e (u "yearAdded")).

(** ** Reading an entry *)

(** The title of the record that an entry gives, when it gives one. *)
Definition kept_title (e : gmap str value) : option str :=
  match strip_method (title_operand e) with
  | Ok (c :: t) => Some (c :: t)
  | _ => None
  end.

Definition has_title (e : gmap str value) : bool :=
  match kept_title e with Some _ => true | None => false end.

(** A value that is a string, or false as a truth value. *)
Definition str_or_falsy (v : value) : bool :=
  match v with
  | VStr _ => true
  | _ => negb (truthy v)
  end.

(** An entry whose names and director the loop body can handle: the title
    operand is a string and, when the title is not empty, so is the
    director, unless it is false as a truth value. *)
Definition accepted (e : gmap str value) : bool :=
  match title_operand e with
  | VStr s =>
      match Py.strip s with
      | [] => true
      | _ :: _ => str_or_falsy (dict_get e (u "director"))
      end
  | _ => false
  end.

(** The code points that a decimal integer is written with: digits, the
    blanks of the C locale, the two signs and the underscore. *)
Definition int_char (c : N) : bool :=
  Py.is_digit c || Py.c_isspace c
  || (c =? 43)%N || (c =? 45)%N || (c =? 95)%N.

(** The code points that [int] can read at all: an ASCII one must be an
    [int_char] or white space, another one a Unicode space or a Unicode
    decimal digit. *)
Definition readable `{UnicodeData} (c : N) : bool :=
  if is_ascii c then int_char c || Py.isspace c
  else Py.isspace c || match decimal c with Some _ => true | None => false end.

(** What may follow a run of digits: nothing, or a code point that is
    neither a digit nor an underscore. *)
Definition stops (rest : str) : Prop :=
  match rest with
  | [] => True
  | w :: _ => Py.is_digit w = false ∧ (w =? 95)%N = false
  end.

(** The four one-character delimiters of the director parser: comma,
    semicolon, slash, vertical bar. *)
Definition delimiter (c : N) : bool :=
  (c =? 44)%N || (c =? 59)%N || (c =? 47)%N || (c =? 124)%N.

(** The text after the five replacements of the director parser. *)
Definition normalized (t : str) : str :=
  fold_left (λ cleaned token, Py.replace token (u ",") cleaned)
    [u " & "; u " and "; u ";"; u "/"; u "|"] t.

(** A code point that is a key of [CYRILLIC_MAP]. *)
Definition in_table (c : N) : bool :=
  bool_decide ([c] ∈ Translit.CYRILLIC_MAP.*1).

(** ** Sample inputs *)

Module Sample.

(** "Пётр Иванов" and "Иван Петров". *)
Definition pyotr_ivanov : str :=
  [0x041f; 0x0451; 0x0442; 0x0440; 0x20;
   0x0418; 0x0432; 0x0430; 0x043d; 0x043e; 0x0432]%N.

Definition ivan_petrov : str :=
  [0x0418; 0x0432; 0x0430; 0x043d; 0x20;
   0x041f; 0x0435; 0x0442; 0x0440; 0x043e; 0x0432]%N.

(** An entry with the given fields; [None] leaves the key out. *)
Definition entry (originalName name yearProduced yearAdded director : option value)
  : gmap str value :=
  let put (k : str) (o : option value) (m : gmap str value) :=
    match o with Some v => <[k := v]> m | None => m end in
  put (u "originalName") originalName
    (put (u "name") name
       (put (u "yearProduced") yearProduced
          (put (u "yearAdded") yearAdded
             (put (u "director") director ∅)))).

(** [{"originalName": "Echo", "yearProduced": 2019}] *)
Definition echo : gmap str value :=
  entry (Some (VStr (u "Echo"))) None (Some (VInt 2019)) None None.

(** [{"originalName": "Echo"}] and [{"originalName": "Echo 2"}] *)
Definition echo_undated : gmap str value :=
  entry (Some (VStr (u "Echo"))) None None None None.

Definition echo_two : gmap str value :=
  entry (Some (VStr (u "Echo 2"))) None None None None.

(** [{"originalName": "A", "yearProduced": "-5", "yearAdded": "-7"}] *)
Definition minus_five : gmap str value :=
  entry (Some (VStr (u "A"))) None (Some (VStr (u "-5")))
        (Some (VStr (u "-7"))) None.

(** [{"originalName": "A", "director": 5}] *)
Definition director_five : gmap str value :=
  entry (Some (VStr (u "A"))) None None None (Some (VInt 5)).

(** [{"originalName": 0, "name": "X"}] *)
Definition original_zero : gmap str value :=
  entry (Some (VInt 0)) (Some (VStr (u "X"))) None None None.

(** [{"originalName": "  ", "name": "X"}] *)
Definition original_blank : gmap str value :=
  entry (Some (VStr (u "  "))) (Some (VStr (u "X"))) None None None.

(** [{"name": "   "}] *)
Definition untitled : gmap str value :=
  entry None (Some (VStr (u "   "))) None None None.

(** [{"originalName": true}] *)
Definition original_true : gmap str value :=
  entry (Some (VBool true)) None None None None.

End Sample.

(** * Properties *)

(** ** The transliterator *)

Section TranslitFacts.
Import Translit.

Lemma find_key_absent (d : list (str * str)) (c : N) :
  [c] ∉ d.*1 →
  List.find (λ kv, bool_decide (kv.1 = [c])) d = None.
Proof.
  induction d as [|[k v] d IH]; intros Hnin; [done|].
  simpl in *. rewrite not_elem_of_cons in Hnin. destruct Hnin as [Hne Hnin].
  rewrite bool_decide_eq_false_2 by congruence. auto.
Qed.

Lemma maketrans_lookup (d : list (str * str)) (acc : gmap N str) (c : N) :
  NoDup d.*1 →
  maketrans d acc !! c =
    match List.find (λ kv, bool_decide (kv.1 = [c])) d with
    | Some kv => Some kv.2
    | None => acc !! c
    end.
Proof.
  revert acc. induction d as [|[k v] d IH]; intros acc Hnd; [done|].
  simpl in Hnd. apply NoDup_cons in Hnd as [Hk Hnd]. simpl.
  destruct k as [|c' [|c'' k]].
  - rewrite bool_decide_eq_false_2 by discriminate. by apply IH.
  - rewrite IH by done. destruct (decide (c' = c)) as [->|Hne].
    + rewrite bool_decide_eq_true_2 by done.
      rewrite find_key_absent by done. by rewrite lookup_insert_eq.
    + rewrite bool_decide_eq_false_2 by congruence.
      destruct (List.find _ d); [done|]. by rewrite lookup_insert_ne.
  - rewrite bool_decide_eq_false_2 by discriminate. by apply IH.
Qed.

Lemma cyrillic_keys_nodup : NoDup CYRILLIC_MAP.*1.
Proof. apply (bool_decide_unpack _). by vm_compute. Qed.

Lemma trans_table_image (c : N) :
  default [c] (TRANS_TABLE !! c) = Ref.table_image c.
Proof.
  unfold TRANS_TABLE, Ref.table_image.
  rewrite maketrans_lookup by apply cyrillic_keys_nodup.
  rewrite lookup_empty. by destruct (List.find _ _).
Qed.

Lemma translate_concat (table : gmap N str) (s : str) :
  translate table s = concat (map (λ c, default [c] (table !! c)) s).
Proof.
  induction s as [|c s IH]; [done|].
  simpl. rewrite IH. by destruct (table !! c).
Qed.

Lemma translate_images (s : str) :
  translate TRANS_TABLE s = Ref.transliterate s.
Proof.
  rewrite translate_concat. unfold Ref.transliterate. f_equal.
  apply map_ext. intros c. apply trans_table_image.
Qed.

Lemma transliterate_str (s : str) :
  transliterate (VStr s) = Ok (translate TRANS_TABLE s).
Proof. destruct s; reflexivity. Qed.

Lemma table_image_pairs :
  Forall (λ kv : str * str, ∃ c, kv.1 = [c] ∧ Ref.table_image c = kv.2)
         CYRILLIC_MAP.
Proof.
  apply Forall_forall. intros [k v] Hin.
  assert (Hb : forallb (λ kv : str * str,
                 match kv.1 with
                 | [c] => bool_decide (Ref.table_image c = kv.2)
                 | _ => false
                 end) CYRILLIC_MAP = true) by (by vm_compute).
  rewrite forallb_forall in Hb. apply list_elem_of_In, Hb in Hin.
  simpl in *. destruct k as [|c [|??]]; try done.
  exists c. split; [done|]. by apply bool_decide_eq_true in Hin.
Qed.

(** C8. [transliterate] replaces every code point that is a key of the
    fixed table by the Latin sequence of its pair, which may be empty, one
    letter or several letters ("Shch"), and keeps every other code point;
    the hard and the soft sign go to the empty string; the empty string and
    [None] give the empty string; "Пётр Иванов" gives "Pyotr Ivanov". *)
Theorem transliterate_by_table :
  (∀ s, transliterate (VStr s) = Ok (concat (map Ref.table_image s)))
  ∧ Forall (λ kv : str * str, ∃ c, kv.1 = [c] ∧ Ref.table_image c = kv.2)
           CYRILLIC_MAP
  ∧ (∀ c, [c] ∉ CYRILLIC_MAP.*1 → Ref.table_image c = [c])
  ∧ Ref.table_image 0x0429 = u "Shch"
  ∧ Ref.table_image 0x0416 = u "Zh"
  ∧ Forall (λ c, Ref.table_image c = [])
           [0x042a; 0x044a; 0x042c; 0x044c]%N
  ∧ transliterate (VStr []) = Ok []
  ∧ transliterate VNone = Ok []
  ∧ transliterate (VStr Sample.pyotr_ivanov) = Ok (u "Pyotr Ivanov").
Proof.
  split_and!.
  - intros s. by rewrite transliterate_str, translate_images.
  - apply table_image_pairs.
  - intros c Hc. unfold Ref.table_image. by rewrite find_key_absent.
  - vm_compute; reflexivity.
  - vm_compute; reflexivity.
  - repeat constructor.
  - reflexivity.
  - reflexivity.
  - vm_compute; reflexivity.
Qed.

End TranslitFacts.

(** ** Stripping and replacing *)

Section StringFacts.

Lemma lstrip_ext (p q : N → bool) (s : str) :
  (∀ c, p c = q c) → Py.lstrip p s = Py.lstrip q s.
Proof.
  intros Hpq. induction s as [|c s IH]; [done|].
  simpl. rewrite <- Hpq, IH. done.
Qed.

Lemma rstrip_ext (p q : N → bool) (s : str) :
  (∀ c, p c = q c) → Py.rstrip p s = Py.rstrip q s.
Proof. intros Hpq. unfold Py.rstrip. by rewrite (lstrip_ext p q). Qed.

Lemma lstrip_ltrim (p : N → bool) (s : str) :
  Py.lstrip p s = Ref.ltrim p s.
Proof.
  unfold Ref.ltrim. induction s as [|c s IH]; [done|].
  simpl. destruct (p c); [exact IH | done].
Qed.

Lemma lstrip_snoc (p : N → bool) (s : str) (c : N) :
  Py.lstrip p (s ++ [c]) =
    match Py.lstrip p s with
    | [] => if p c then [] else [c]
    | kept => kept ++ [c]
    end.
Proof.
  induction s as [|a s IH]; simpl.
  - by destruct (p c).
  - destruct (p a); [exact IH | done].
Qed.

Lemma rstrip_rtrim (p : N → bool) (s : str) :
  Py.rstrip p s = Ref.rtrim p s.
Proof.
  unfold Py.rstrip. induction s as [|c s IH]; [done|].
  simpl. rewrite lstrip_snoc, <- IH.
  destruct (Py.lstrip p (rev s)) as [|x kept] eqn:E.
  - simpl. by destruct (p c).
  - rewrite rev_app_distr. simpl.
    destruct (rev kept ++ [x]) eqn:E'; [|done].
    by destruct (rev kept).
Qed.

Lemma strip_chars_trim (chars : str) (p : N → bool) (s : str) :
  (∀ c, Py.mem chars c = p c) → Py.strip_chars chars s = Ref.trim p s.
Proof.
  intros Hp. unfold Py.strip_chars, Ref.trim.
  rewrite (rstrip_ext _ p), (lstrip_ext _ p) by done.
  by rewrite rstrip_rtrim, lstrip_ltrim.
Qed.

Lemma mem_hyphen (c : N) : Py.mem (u "-") c = Ref.hyphen c.
Proof.
  change (u "-") with [45%N].
  unfold Py.mem, Ref.hyphen. simpl. by rewrite orb_false_r.
Qed.

Lemma mem_blank_or_period (c : N) :
  Py.mem [32; 9; 13; 10; 46]%N c = Ref.blank_or_period c.
Proof.
  unfold Py.mem, Ref.blank_or_period, Ref.blank, Ref.period. simpl.
  rewrite orb_false_r, !orb_assoc. f_equal.
  apply eq_true_iff_eq. rewrite bool_decide_eq_true, !orb_true_iff, !N.eqb_eq.
  rewrite !elem_of_cons, elem_of_nil. tauto.
Qed.

(** The scan of [re.sub] against the cut into maximal runs. *)
Lemma sub_runs_runs (cls : N → bool) (repl : str) (s : str) :
  let f := λ br : bool * str, if br.1 then repl else br.2 in
  Py.sub_runs cls repl false s = concat (map f (Ref.runs cls s))
  ∧ Py.sub_runs cls repl true s =
      match Ref.runs cls s with
      | (true, _) :: more => concat (map f more)
      | other => concat (map f other)
      end.
Proof.
  intros f. induction s as [|c s [IH1 IH2]]; [done|].
  simpl. destruct (cls c) eqn:Ec.
  - rewrite IH2. destruct (Ref.runs cls s) as [|[[] r] more]; simpl; done.
  - rewrite IH1. destruct (Ref.runs cls s) as [|[[] r] more]; simpl; done.
Qed.

Lemma sub_runs_hyphenate (s : str) :
  Py.sub_runs Py.not_alnum (u "-") false s = Ref.hyphenate s.
Proof. apply (sub_runs_runs Py.not_alnum (u "-") s). Qed.

Lemma startswith_prefix (s old : str) :
  Py.startswith s old = bool_decide (old `prefix_of` s).
Proof.
  revert s. induction old as [|a old IH]; intros s.
  - transitivity true; [by destruct s|].
    symmetry. apply bool_decide_eq_true_2, prefix_nil.
  - destruct s as [|c s]; cbn [Py.startswith].
    + symmetry. apply bool_decide_eq_false_2. by intros ?%prefix_nil_inv.
    + rewrite IH. destruct (N.eqb_spec a c) as [->|Hne]; simpl.
      * apply bool_decide_ext. split; [apply prefix_cons | apply prefix_cons_inv_2].
      * symmetry. apply bool_decide_eq_false_2.
        intros Hp. by apply prefix_cons_inv_1 in Hp.
Qed.

Lemma replace_from_skip (old new : str) (k : nat) (s : str) :
  Py.replace_from old new k s = Py.replace_from old new 0 (drop k s).
Proof.
  revert k. induction s as [|c s IH]; intros [|k]; try done.
  simpl. apply IH.
Qed.

Lemma replace_all_from (fuel : nat) (old new : str) (s : str) :
  old ≠ [] → length s < fuel →
  Ref.replace_all fuel old new s = Py.replace old new s.
Proof.
  intros Hold. unfold Py.replace. revert s.
  induction fuel as [|fuel IH]; intros s Hlen; [lia|].
  destruct s as [|c s].
  - simpl. rewrite bool_decide_eq_false_2; [done|].
    by intros ?%prefix_nil_inv.
  - cbn [Ref.replace_all Py.replace_from]. rewrite startswith_prefix.
    destruct (bool_decide (old `prefix_of` c :: s)).
    + destruct old as [|a old]; [done|]. simpl in *.
      rewrite Nat.sub_0_r, replace_from_skip. f_equal.
      apply IH. rewrite length_drop. lia.
    + f_equal. apply IH. simpl in Hlen. lia.
Qed.

Lemma split_commas_cons (s : str) :
  ∃ piece more, Ref.split_commas s = piece :: more.
Proof.
  destruct s as [|c s]; [by eexists _, _|].
  unfold Ref.split_commas. simpl. case_bool_decide; [by eexists _, _|].
  destruct (foldr _ _ s); by eexists _, _.
Qed.

Lemma split_from_commas (cur : str) (s : str) :
  Py.split_from 44 cur s =
    match Ref.split_commas s with
    | piece :: more => (rev cur ++ piece) :: more
    | [] => [rev cur]
    end.
Proof.
  revert cur. induction s as [|c s IH]; intros cur.
  - simpl. by rewrite app_nil_r.
  - cbn [Py.split_from]. unfold Ref.split_commas. cbn [foldr].
    fold (Ref.split_commas s).
    destruct (N.eqb_spec c 44) as [->|Hne].
    + rewrite bool_decide_eq_true_2 by done. rewrite app_nil_r, IH.
      by destruct (split_commas_cons s) as (p & more & ->).
    + rewrite bool_decide_eq_false_2 by done. rewrite IH.
      destruct (split_commas_cons s) as (p & more & ->).
      simpl. by rewrite <- app_assoc.
Qed.

Lemma split_commas_split (s : str) : Py.split 44 s = Ref.split_commas s.
Proof.
  unfold Py.split. rewrite split_from_commas.
  by destruct (split_commas_cons s) as (p & more & ->).
Qed.

End StringFacts.

(** ** The slug generator *)

Section SlugifyFacts.
Context `{UnicodeData}.

Lemma slugify_ref_eq (title : str) (year : Z) :
  slugify title year = Ref.slugify title year.
Proof.
  unfold slugify, Ref.slugify, Py.decode_ascii, Py.encode_ascii_ignore, Py.lower.
  replace (match title with [] => [] | _ :: _ => title end) with title
    by (by destruct title).
  rewrite sub_runs_hyphenate, (strip_chars_trim _ Ref.hyphen) by apply mem_hyphen.
  set (step2 := Ref.trim _ _).
  change (u "-") with [45%N].
  destruct step2 as [|c step2], (Z.eqb_spec year 0) as [->|Hne];
    repeat case_bool_decide; simpl; congruence.
Qed.

(** On an ASCII title the database is not needed. *)
Lemma slugify_ascii (title : str) (year : Z) :
  forallb is_ascii title = true →
  slugify title year = slugify (H := ascii_only) title year.
Proof.
  intros Ha. unfold slugify.
  replace (match title with [] => [] | _ :: _ => title end) with title
    by (by destruct title).
  by rewrite (nfkd_ascii _ Ha).
Qed.

Lemma slugify_folds_to_empty (title : str) (year : Z) :
  List.filter is_ascii (nfkd title) = [] →
  slugify title year =
    if bool_decide (year = 0%Z) then u "film"
    else u "film-" ++ Py.str_of_int year.
Proof.
  intros Hf. unfold slugify, Py.decode_ascii, Py.encode_ascii_ignore.
  replace (match title with [] => [] | _ :: _ => title end) with title
    by (by destruct title).
  rewrite Hf. cbn [Py.lower map Py.sub_runs].
  change (Py.strip_chars (u "-") []) with (@nil N).
  destruct (Z.eqb_spec year 0) as [->|Hne]; cbn [negb].
  - by rewrite bool_decide_eq_true_2.
  - by rewrite bool_decide_eq_false_2.
Qed.

Lemma sub_runs_all (cls : N → bool) (repl : str) (s : str) :
  forallb cls s = true →
  Py.sub_runs cls repl true s = []
  ∧ (Py.sub_runs cls repl false s = [] ∨ Py.sub_runs cls repl false s = repl).
Proof.
  induction s as [|c s IH]; [by split; [|left]|].
  cbn [forallb Py.sub_runs]. intros [-> [Ht _]%IH]%andb_true_iff.
  split; [done|]. right. by rewrite Ht, app_nil_r.
Qed.

Lemma slugify_nothing_left (title : str) (year : Z) :
  forallb Py.not_alnum (Py.lower (List.filter is_ascii (nfkd title))) = true →
  slugify title year =
    if bool_decide (year = 0%Z) then u "film"
    else u "film-" ++ Py.str_of_int year.
Proof.
  intros Hf. unfold slugify, Py.decode_ascii, Py.encode_ascii_ignore.
  replace (match title with [] => [] | _ :: _ => title end) with title
    by (by destruct title).
  assert (Hc : Py.strip_chars (u "-")
                 (Py.sub_runs Py.not_alnum (u "-") false
                    (Py.lower (List.filter is_ascii (nfkd title)))) = []).
  { destruct (sub_runs_all Py.not_alnum (u "-") _ Hf) as [_ [-> | ->]];
      by vm_compute. }
  rewrite Hc.
  destruct (Z.eqb_spec year 0) as [->|Hne]; cbn [negb].
  - by rewrite bool_decide_eq_true_2.
  - by rewrite bool_decide_eq_false_2.
Qed.

(** C4. [slugify] is the four-step algorithm of section 4.2: decompose and
    drop what is not ASCII, put to lower case and replace every maximal run
    of code points outside [[a-z0-9]] by one hyphen and trim the hyphens at
    both ends, take "film" for an empty result, append the year after a
    hyphen exactly when it is not zero.  "The Movie!!" with 2020 gives
    "the-movie-2020", with 0 "the-movie"; a title that folds to the empty
    string, or to a string without a letter or digit, gives "film" or
    "film-" and the year. *)
Theorem slugify_four_steps :
  (∀ title year, slugify title year = Ref.slugify title year)
  ∧ slugify (u "The Movie!!") 2020 = u "the-movie-2020"
  ∧ slugify (u "The Movie!!") 0 = u "the-movie"
  ∧ (∀ title year,
       List.filter is_ascii (nfkd title) = [] →
       slugify title year =
         if bool_decide (year = 0%Z) then u "film"
         else u "film-" ++ Py.str_of_int year)
  ∧ (∀ title year,
       forallb Py.not_alnum (Py.lower (List.filter is_ascii (nfkd title)))
       = true →
       slugify title year =
         if bool_decide (year = 0%Z) then u "film"
         else u "film-" ++ Py.str_of_int year).
Proof.
  split_and!.
  - apply slugify_ref_eq.
  - rewrite slugify_ascii by reflexivity. vm_compute. reflexivity.
  - rewrite slugify_ascii by reflexivity. vm_compute. reflexivity.
  - apply slugify_folds_to_empty.
  - apply slugify_nothing_left.
Qed.

End SlugifyFacts.

(** ** The director parser *)

Section DirectorFacts.
Import Translit.

Lemma parse_directors_ref_eq (raw : str) :
  parse_directors (VStr raw) = Ok (Ref.parse_directors raw).
Proof.
  unfold parse_directors.
  replace (py_or (VStr raw) (VStr [])) with (VStr raw) by (by destruct raw).
  rewrite transliterate_str, translate_images.
  cbn [mbind result_bind fold_left].
  unfold Ref.parse_directors, Ref.normalize_delimiters, Ref.comma.
  change (u ",") with [44%N].
  rewrite !replace_all_from by (done || lia).
  rewrite split_commas_split. f_equal.
  rewrite (map_ext _ (Ref.trim Ref.blank_or_period)).
  2:{ intros part. apply strip_chars_trim, mem_blank_or_period. }
  apply List.filter_ext. intros [|]; done.
Qed.

(** C6, as amended.  [parse_directors] transliterates the string, replaces
    " & ", " and ", ";", "/" and "|" by a comma in this order, splits at the
    commas, strips blanks, tabs, carriage returns, line feeds and periods at
    both ends of each piece, drops the pieces that are empty then, and
    keeps the order; "Иван Петров & John Smith" gives "Ivan Petrov" and
    "John Smith". *)
Theorem parse_directors_reference :
  (∀ raw, parse_directors (VStr raw) = Ok (Ref.parse_directors raw))
  ∧ parse_directors (VStr (Sample.ivan_petrov ++ u " & John Smith"))
    = Ok [u "Ivan Petrov"; u "John Smith"].
Proof.
  split.
  - apply parse_directors_ref_eq.
  - vm_compute. reflexivity.
Qed.

End DirectorFacts.

(** ** Integer coercion *)

Section IntFacts.
Context `{UnicodeData}.

Lemma lstrip_elem (p : N → bool) (s : str) (x : N) :
  x ∈ Py.lstrip p s → x ∈ s.
Proof.
  induction s as [|c s IH]; [done|].
  simpl. destruct (p c); [|done]. intros Hx. right. by apply IH.
Qed.

Lemma scan_digits_nonneg (p : str) (prev : N) (len : nat) (acc : Z)
    (n : Z) (len' : nat) (rest : str) :
  Py.scan_digits p prev len acc = Some (n, len', rest) →
  (0 ≤ acc)%Z → (0 ≤ n)%Z.
Proof.
  revert prev len acc. induction p as [|c p IH]; intros prev len acc; simpl.
  - destruct (prev =? 95)%N; [done|]. intros [= <- _ _]. done.
  - destruct (Py.is_digit c).
    + intros Hs Hacc. apply IH in Hs; [done|]. lia.
    + destruct (c =? 95)%N.
      * destruct (prev =? 95)%N; [done|]. apply IH.
      * destruct (prev =? 95)%N; [done|]. intros [= <- _ _]. done.
Qed.

Lemma long_from_string_raises (s : str) (e : exn) :
  Py.long_from_string s = Raise e → e = ValueError.
Proof.
  unfold Py.long_from_string.
  destruct (match Py.lstrip Py.c_isspace s with
            | [] => _ | c :: p' => _ end) as [sign p].
  destruct (Py.startswith p [95%N]); [congruence|].
  destruct (Py.scan_digits p 0 0 0) as [[[n len] rest]|]; [|congruence].
  cbv zeta. destruct (_ <? _)%N; [congruence|].
  destruct len; [congruence|].
  destruct (Py.lstrip Py.c_isspace rest); congruence.
Qed.

Lemma long_from_string_negative (s : str) (n : Z) :
  Py.long_from_string s = Ok n → (n < 0)%Z → 45%N ∈ s.
Proof.
  unfold Py.long_from_string.
  destruct (Py.lstrip Py.c_isspace s) as [|c p'] eqn:Es.
  - destruct (Py.scan_digits [] 0 0 0) as [[[m len] rest]|] eqn:Ed;
      cbv zeta; [|done].
    destruct (_ <? _)%N; [done|].
    destruct len; [done|]. destruct (Py.lstrip Py.c_isspace rest); [|done].
    intros [= <-] Hneg. apply scan_digits_nonneg in Ed; lia.
  - assert (Hin : ∀ x, x ∈ c :: p' → x ∈ s).
    { intros x Hx. apply (lstrip_elem Py.c_isspace). by rewrite Es. }
    destruct (c =? 43)%N eqn:Ec1; [|destruct (N.eqb_spec c 45) as [->|Hc2]].
    + destruct (Py.startswith p' [95%N]); [done|].
      destruct (Py.scan_digits p' 0 0 0) as [[[m len] rest]|] eqn:Ed; [|done].
      cbv zeta. destruct (_ <? _)%N; [done|].
      destruct len; [done|]. destruct (Py.lstrip Py.c_isspace rest); [|done].
      intros [= <-] Hneg. apply scan_digits_nonneg in Ed; lia.
    + intros _ _. apply Hin. by left.
    + destruct (Py.startswith (c :: p') [95%N]); [done|].
      destruct (Py.scan_digits (c :: p') 0 0 0) as [[[m len] rest]|] eqn:Ed;
        [|done].
      cbv zeta. destruct (_ <? _)%N; [done|].
      destruct len; [done|]. destruct (Py.lstrip Py.c_isspace rest); [|done].
      intros [= <-] Hneg. apply scan_digits_nonneg in Ed; lia.
Qed.

Lemma to_ascii_decimal_minus (s : str) :
  45%N ∈ Py.to_ascii_decimal s → 45%N ∈ s.
Proof.
  induction s as [|ch s IH]; [done|]. simpl.
  destruct (ch <? 127)%N.
  - intros [->|Hin]%elem_of_cons; [by left|]. right. by apply IH.
  - destruct (Py.isspace ch).
    + intros [?|Hin]%elem_of_cons; [done|]. right. by apply IH.
    + destruct (if is_ascii ch then None else decimal ch) as [d|].
      * intros [?|Hin]%elem_of_cons; [lia|]. right. by apply IH.
      * intros [?|Hin]%elem_of_cons; [done|]. by apply elem_of_nil in Hin.
Qed.

Lemma int_of_str_raises (s : str) (e : exn) :
  Py.int_of_str s = Raise e → e = ValueError.
Proof. apply long_from_string_raises. Qed.

Lemma int_of_str_negative (s : str) (n : Z) :
  Py.int_of_str s = Ok n → (n < 0)%Z → 45%N ∈ s.
Proof.
  unfold Py.int_of_str. intros Hs Hneg.
  apply long_from_string_negative in Hs; [|done].
  destruct (forallb is_ascii s); [done|]. by apply to_ascii_decimal_minus.
Qed.

Lemma str_of_raises (v : value) (e : exn) :
  Py.str_of v = Raise e → e = ValueError.
Proof.
  destruct v as [|[]|z|s]; cbn [Py.str_of]; try done.
  destruct (_ <? _)%N; congruence.
Qed.

(** [int(str(v))] raises nothing but [ValueError]. *)
Lemma int_of_str_of_raises (v : value) (e : exn) :
  (s ← Py.str_of v; Py.int_of_str s) = Raise e → e = ValueError.
Proof.
  destruct (Py.str_of v) as [s|e'] eqn:Es; cbn [mbind result_bind].
  - apply int_of_str_raises.
  - intros [= <-]. by apply str_of_raises in Es.
Qed.

(** [parse_int] returns an integer for every value. *)
Lemma parse_int_total (v : value) : ∃ n, parse_int v = Ok n.
Proof.
  unfold parse_int.
  destruct (s ← Py.str_of v; Py.int_of_str s) as [n|e] eqn:E.
  - by exists n.
  - apply int_of_str_of_raises in E as ->. by exists 0%Z.
Qed.

Lemma parse_int_unparseable (v : value) (e : exn) :
  (s ← Py.str_of v; Py.int_of_str s) = Raise e → parse_int v = Ok 0%Z.
Proof.
  intros E. unfold parse_int. rewrite E.
  by apply int_of_str_of_raises in E as ->.
Qed.

Lemma parse_int_negative (v : value) (n : Z) :
  parse_int v = Ok n → (n < 0)%Z → ∃ s, Py.str_of v = Ok s ∧ 45%N ∈ s.
Proof.
  unfold parse_int. destruct (Py.str_of v) as [s|e] eqn:Es;
    cbn [mbind result_bind].
  - destruct (Py.int_of_str s) as [m|e] eqn:E.
    + intros [= <-] Hneg. exists s. split; [done|]. by eapply int_of_str_negative.
    + apply int_of_str_raises in E as ->. intros [= <-]. lia.
  - apply str_of_raises in Es as ->. intros [= <-]. lia.
Qed.

Lemma uint_chars_digits (d : Decimal.uint) :
  Forall (λ c, Py.is_digit c = true) (Py.uint_chars d).
Proof. induction d; simpl; by constructor. Qed.

Lemma uint_chars_nil (d : Decimal.uint) :
  Py.uint_chars d = [] → d = Decimal.Nil.
Proof. by destruct d. Qed.

Lemma str_of_int_nonneg (z : Z) :
  (0 ≤ z)%Z → Forall (λ c, Py.is_digit c = true) (Py.str_of_int z).
Proof.
  intros Hz. unfold Py.str_of_int.
  destruct z as [|p|p]; [| |lia]; apply uint_chars_digits.
Qed.

Lemma str_of_int_pos (z : Z) : (0 < z)%Z → Py.str_of_int z ≠ [].
Proof.
  intros Hz. unfold Py.str_of_int. destruct z as [|p|p]; [lia| |lia].
  simpl. intros Hnil%uint_chars_nil.
  by apply DecimalPos.Unsigned.to_uint_nonnil in Hnil.
Qed.

(** *** Reading back a printed integer *)

Lemma digit_not_special (c : N) :
  Py.is_digit c = true →
  Py.c_isspace c = false ∧ (c =? 43)%N = false ∧ (c =? 45)%N = false
  ∧ (c =? 95)%N = false ∧ (95 =? c)%N = false.
Proof.
  unfold Py.is_digit, Py.c_isspace.
  intros [H1%N.leb_le H2%N.leb_le]%andb_true_iff.
  repeat split; rewrite ?orb_false_iff, ?andb_false_iff, ?N.eqb_neq, ?N.leb_gt;
    repeat split; lia.
Qed.

Lemma scan_uint_acc (d : Decimal.uint) (prev : N) (len : nat) (acc : positive) :
  prev ≠ 95%N →
  Py.scan_digits (Py.uint_chars d) prev len (Z.pos acc)
  = Some (Z.pos (Pos.of_uint_acc d acc),
          (len + length (Py.uint_chars d))%nat, []).
Proof.
  revert prev len acc.
  induction d as [|d IH|d IH|d IH|d IH|d IH|d IH|d IH|d IH|d IH|d IH];
    intros prev len acc Hprev;
    cbn [Py.uint_chars Py.scan_digits length Pos.of_uint_acc].
  { apply N.eqb_neq in Hprev as ->. by rewrite Nat.add_0_r. }
  all: change (Py.is_digit _) with true; cbn iota.
  all: match goal with
       | |- Py.scan_digits _ _ _ ?a = Some (Z.pos (Pos.of_uint_acc _ ?q), _, _) =>
           replace a with (Z.pos q) by lia
       end.
  all: rewrite IH by done; by rewrite Nat.add_succ_r.
Qed.

Lemma scan_uint (d : Decimal.uint) (prev : N) (len : nat) :
  prev ≠ 95%N →
  Py.scan_digits (Py.uint_chars d) prev len 0
  = Some (Z.of_N (Pos.of_uint d), (len + length (Py.uint_chars d))%nat, []).
Proof.
  revert prev len.
  induction d as [|d IH|d IH|d IH|d IH|d IH|d IH|d IH|d IH|d IH|d IH];
    intros prev len Hprev;
    cbn [Py.uint_chars Py.scan_digits length Pos.of_uint].
  { apply N.eqb_neq in Hprev as ->. by rewrite Nat.add_0_r. }
  { change (Py.is_digit _) with true. cbn iota.
    change (10 * 0 + Z.of_N (48 - 48))%Z with 0%Z.
    rewrite IH by done. by rewrite Nat.add_succ_r. }
  all: change (Py.is_digit _) with true; cbn iota.
  all: match goal with
       | |- Py.scan_digits _ _ _ ?a = Some (Z.of_N (N.pos (Pos.of_uint_acc _ ?q)), _, _) =>
           change a with (Z.pos q)
       end.
  all: rewrite scan_uint_acc by done; by rewrite Nat.add_succ_r.
Qed.

Lemma filter_digits (s : str) :
  Forall (λ c, Py.is_digit c = true) s → List.filter Py.is_digit s = s.
Proof.
  induction 1 as [|c s Hc _ IH]; [done|].
  cbn [List.filter]. by rewrite Hc, IH.
Qed.

(** The digits that the reader counts in a run of digits followed by
    [rest]: all of the run. *)
Lemma counted_digits (d : Decimal.uint) (rest : str) :
  N.of_nat
    (length (List.filter Py.is_digit
               (take (0 + length (Py.uint_chars d)) (Py.uint_chars d ++ rest))))
  = N.of_nat (length (Py.uint_chars d)).
Proof.
  cbn [Nat.add]. rewrite take_app_length.
  by rewrite filter_digits by apply uint_chars_digits.
Qed.

Lemma long_from_digits (d : Decimal.uint) :
  d ≠ Decimal.Nil →
  (N.of_nat (length (Py.uint_chars d)) ≤ Py.int_max_str_digits)%N →
  Py.long_from_string (Py.uint_chars d) = Ok (Z.of_N (Pos.of_uint d))
  ∧ Py.long_from_string (45%N :: Py.uint_chars d)
    = Ok (- Z.of_N (Pos.of_uint d))%Z.
Proof.
  intros Hd Hlim. pose proof (uint_chars_digits d) as Hdig.
  pose proof (scan_uint d 0 0 ltac:(done)) as Hscan.
  pose proof (counted_digits d []) as Hcount. rewrite app_nil_r in Hcount.
  apply N.ltb_ge in Hlim.
  destruct (Py.uint_chars d) as [|c s] eqn:Ed.
  { by apply uint_chars_nil in Ed. }
  apply Forall_cons in Hdig as [Hc _].
  destruct (digit_not_special c Hc) as (Hsp & H43 & H45 & _ & H95).
  split; unfold Py.long_from_string; cbn [Py.lstrip].
  - rewrite Hsp, H43, H45. cbn [Py.startswith]. rewrite H95. cbn [andb].
    rewrite Hscan. cbv zeta. rewrite Hcount, Hlim.
    cbn [Nat.add length Py.lstrip]. f_equal. lia.
  - change (Py.c_isspace 45) with false. cbn iota.
    change (N.eqb 45 43) with false. change (N.eqb 45 45) with true. cbn iota.
    cbn [Py.startswith]. rewrite H95. cbn [andb].
    rewrite Hscan. cbv zeta. rewrite Hcount, Hlim.
    cbn [Nat.add length Py.lstrip]. f_equal.
Qed.

(** A run of more digits than the limit is refused, with a minus sign
    before it or without. *)
Lemma long_from_digits_beyond (d : Decimal.uint) :
  (Py.int_max_str_digits < N.of_nat (length (Py.uint_chars d)))%N →
  Py.long_from_string (Py.uint_chars d) = Raise ValueError
  ∧ Py.long_from_string (45%N :: Py.uint_chars d) = Raise ValueError.
Proof.
  intros Hlim. pose proof (uint_chars_digits d) as Hdig.
  pose proof (scan_uint d 0 0 ltac:(done)) as Hscan.
  pose proof (counted_digits d []) as Hcount. rewrite app_nil_r in Hcount.
  apply N.ltb_lt in Hlim.
  destruct (Py.uint_chars d) as [|c s] eqn:Ed.
  { by vm_compute in Hlim. }
  apply Forall_cons in Hdig as [Hc _].
  destruct (digit_not_special c Hc) as (Hsp & H43 & H45 & _ & H95).
  split; unfold Py.long_from_string; cbn [Py.lstrip].
  - rewrite Hsp, H43, H45. cbn [Py.startswith]. rewrite H95. cbn [andb].
    rewrite Hscan. cbv zeta. by rewrite Hcount, Hlim.
  - change (Py.c_isspace 45) with false. cbn iota.
    change (N.eqb 45 43) with false. change (N.eqb 45 45) with true. cbn iota.
    cbn [Py.startswith]. rewrite H95. cbn [andb].
    rewrite Hscan. cbv zeta. by rewrite Hcount, Hlim.
Qed.

(** The digits of [z] are those of its decimal text, the sign left out. *)
Lemma int_digits_eq (z : Z) :
  Py.int_digits z
  = N.of_nat (length (match Z.to_int z with
                      | Decimal.Pos d | Decimal.Neg d => Py.uint_chars d
                      end)).
Proof. by destruct z. Qed.

Lemma long_from_str_of_int (z : Z) :
  (Py.int_digits z ≤ Py.int_max_str_digits)%N →
  Py.long_from_string (Py.str_of_int z) = Ok z.
Proof.
  rewrite int_digits_eq. unfold Py.str_of_int.
  destruct z as [|p|p]; [by vm_compute| |]; cbn [Z.to_int]; intros Hlim.
  - destruct (long_from_digits (Pos.to_uint p)) as [-> _]; [|done|].
    { apply DecimalPos.Unsigned.to_uint_nonnil. }
    by rewrite DecimalPos.Unsigned.of_to.
  - destruct (long_from_digits (Pos.to_uint p)) as [_ ->]; [|done|].
    { apply DecimalPos.Unsigned.to_uint_nonnil. }
    by rewrite DecimalPos.Unsigned.of_to.
Qed.

Lemma long_from_str_of_int_beyond (z : Z) :
  (Py.int_max_str_digits < Py.int_digits z)%N →
  Py.long_from_string (Py.str_of_int z) = Raise ValueError.
Proof.
  rewrite int_digits_eq. unfold Py.str_of_int.
  destruct z as [|p|p]; [by vm_compute| |]; cbn [Z.to_int]; intros Hlim.
  - by destruct (long_from_digits_beyond (Pos.to_uint p) Hlim) as [-> _].
  - by destruct (long_from_digits_beyond (Pos.to_uint p) Hlim) as [_ ->].
Qed.

Lemma str_of_int_ascii (z : Z) : forallb is_ascii (Py.str_of_int z) = true.
Proof.
  assert (Hd : ∀ d, forallb is_ascii (Py.uint_chars d) = true)
    by (induction d; simpl; done).
  unfold Py.str_of_int. destruct (Z.to_int z); simpl; apply Hd.
Qed.

Lemma str_of_ascii (v : value) (s : str) :
  ascii_value v = true → Py.str_of v = Ok s → forallb is_ascii s = true.
Proof.
  destruct v as [|[]|z|t]; cbn [Py.str_of ascii_value]; intros Ha.
  1-3: by intros [= <-].
  - destruct (_ <? _)%N; [done|]. intros [= <-]. apply str_of_int_ascii.
  - by intros [= <-].
Qed.

(** An integer within the limit on its digits, and the text that prints
    it, are coerced to it. *)
Lemma parse_int_printed (z : Z) :
  (Py.int_digits z ≤ Py.int_max_str_digits)%N →
  parse_int (VInt z) = Ok z ∧ parse_int (VStr (Py.str_of_int z)) = Ok z.
Proof.
  intros Hlim. unfold parse_int, Py.int_of_str. cbn [Py.str_of].
  apply N.ltb_ge in Hlim as Hlt. rewrite Hlt. cbn [mbind result_bind].
  by rewrite str_of_int_ascii, long_from_str_of_int.
Qed.

(** An integer beyond the limit, and the text that prints it, are coerced
    to 0: [str] refuses the first, [int] the second. *)
Lemma parse_int_beyond (z : Z) :
  (Py.int_max_str_digits < Py.int_digits z)%N →
  parse_int (VInt z) = Ok 0%Z ∧ parse_int (VStr (Py.str_of_int z)) = Ok 0%Z.
Proof.
  intros Hlim. unfold parse_int, Py.int_of_str. cbn [Py.str_of].
  apply N.ltb_lt in Hlim as Hlt. rewrite Hlt. cbn [mbind result_bind].
  by rewrite str_of_int_ascii, long_from_str_of_int_beyond.
Qed.

Lemma parse_int_ascii (v : value) :
  ascii_value v = true → parse_int v = parse_int (H := ascii_only) v.
Proof.
  intros Ha. unfold parse_int.
  destruct (Py.str_of v) as [s|e] eqn:Es; cbn [mbind result_bind]; [|done].
  unfold Py.int_of_str. by rewrite (str_of_ascii v s Ha Es).
Qed.

End IntFacts.

(** ** The loop *)

Section LoopFacts.
Context `{UnicodeData}.

Lemma body_skip (e : gmap str value) (st : state) :
  strip_method (title_operand e) = Ok [] → body e st = Ok st.
Proof.
  intros Ht. unfold body. rewrite Ht. cbn [mbind result_bind].
  by destruct (parse_int_total (dict_get e (u "yearProduced"))) as [n ->].
Qed.

Lemma body_inv (e : gmap str value) (st st' : state) :
  body e st = Ok st' →
  (strip_method (title_operand e) = Ok [] ∧ st' = st)
  ∨ ∃ t ry gy ds,
      let b := slugify t ry in
      let m := output_record (assigned (slug_counts st) b) t ry gy ds in
      built_from e m
      ∧ st' = {| movies := movies st ++ [m];
                 slug_counts :=
                   <[b := (default 0 (slug_counts st !! b) + 1)%Z]>
                     (slug_counts st) |}.
Proof.
  unfold body.
  destruct (strip_method (title_operand e)) as [t|] eqn:Et;
    cbn [mbind result_bind]; [|done].
  destruct (parse_int (dict_get e (u "yearProduced"))) as [ry|] eqn:Ey;
    cbn [mbind result_bind]; [|done].
  destruct t as [|c t]; cbn [truthy negb].
  { intros [= <-]. by left. }
  destruct (parse_int (dict_get e (u "yearAdded"))) as [gy|] eqn:Eg;
    cbn [mbind result_bind]; [|done].
  destruct (parse_directors (dict_get e (u "director"))) as [ds|] eqn:Ed;
    cbn [mbind result_bind]; [|done].
  intros [= <-]. right. exists (c :: t), ry, gy, ds.
  split; [|done]. by repeat split.
Qed.

Lemma loop_app (src1 src2 : list (gmap str value)) (st : state) :
  loop (src1 ++ src2) st = st' ← loop src1 st; loop src2 st'.
Proof.
  revert st. induction src1 as [|e src1 IH]; intros st; [done|].
  simpl. destruct (body e st) as [st1|]; cbn [mbind result_bind]; [|done].
  apply IH.
Qed.

(** Every record of the output was built from an entry of the input. *)
Lemma loop_built (source : list (gmap str value)) (st st' : state) :
  loop source st = Ok st' →
  ∀ m, m ∈ movies st' → m ∈ movies st ∨ ∃ e, e ∈ source ∧ built_from e m.
Proof.
  revert st. induction source as [|e source IH]; intros st; simpl.
  { intros [= <-] m Hm. by left. }
  destruct (body e st) as [st1|] eqn:Eb; cbn [mbind result_bind]; [|done].
  intros Hl m Hm. destruct (IH _ Hl m Hm) as [Hin|(e' & He' & Hb)].
  - apply body_inv in Eb as [[_ ->]|(t & ry & gy & ds & Hb & ->)].
    + by left.
    + simpl in Hin. apply elem_of_app in Hin as [Hin|Hin]; [by left|].
      apply list_elem_of_singleton in Hin as ->.
      right. exists e. split; [by left | done].
  - right. exists e'. split; [by right | done].
Qed.

Lemma convert_built (source : list (gmap str value)) (out : list movie) :
  convert source = Ok out →
  ∀ m, m ∈ out → ∃ e, e ∈ source ∧ built_from e m.
Proof.
  unfold convert. destruct (loop source initial) as [st|] eqn:El;
    cbn [mbind result_bind]; [|done].
  intros [= <-] m Hm.
  destruct (loop_built _ _ _ El m Hm) as [Hin|Hex]; [|done].
  by apply elem_of_nil in Hin.
Qed.

Lemma occurrences_snoc (b x : str) (l : list str) :
  occurrences b (l ++ [x])
  = (occurrences b l + if bool_decide (x = b) then 1 else 0)%nat.
Proof.
  unfold occurrences. rewrite List.filter_app, length_app. simpl.
  by destruct (bool_decide (x = b)).
Qed.

Lemma initial_follows_scheme : follows_scheme initial.
Proof. split; [done|]. intros i m Hm. cbn in Hm. done. Qed.

Lemma body_follows_scheme (e : gmap str value) (st st' : state) :
  follows_scheme st → body e st = Ok st' → follows_scheme st'.
Proof.
  intros [Hc Hs] [[_ ->]|(t & ry & gy & ds & _ & ->)]%body_inv; [done|].
  set (b := slugify t ry). split.
  - intros b'. cbn [movies slug_counts].
    rewrite map_app. cbn [map].
    change (base_slug (output_record _ t ry gy ds)) with b.
    rewrite occurrences_snoc.
    destruct (decide (b = b')) as [<-|Hne].
    + rewrite lookup_insert_eq, bool_decide_eq_true_2 by done.
      cbn [default from_option]. unfold id. rewrite Hc. lia.
    + rewrite lookup_insert_ne, bool_decide_eq_false_2 by done.
      rewrite Hc. lia.
  - intros i m. cbn [movies]. intros Hm.
    destruct (decide (i < length (movies st))) as [Hlt|Hge].
    + rewrite lookup_app_l in Hm by done.
      rewrite take_app_le by lia. by apply Hs.
    + apply lookup_app_Some in Hm as [Hm|[_ Hm]].
      { apply lookup_lt_Some in Hm. lia. }
      apply list_lookup_singleton_Some in Hm as [Hi <-].
      replace i with (length (movies st)) by lia. rewrite take_app_length.
      change (base_slug (output_record _ t ry gy ds)) with b.
      cbn [slug output_record]. unfold assigned. rewrite Hc. unfold nth_slug.
      destruct (occurrences b (map base_slug (movies st))) as [|k]; [done|].
      destruct (Z.eqb_spec (Z.of_nat (S k)) 0) as [?|_]; [lia|].
      cbn [Nat.eqb].
      replace (Z.of_nat (S k) + 1)%Z with (Z.of_nat (S (S k))) by lia.
      done.
Qed.

Lemma loop_follows_scheme (source : list (gmap str value)) (st st' : state) :
  follows_scheme st → loop source st = Ok st' → follows_scheme st'.
Proof.
  revert st. induction source as [|e source IH]; intros st Hst; simpl.
  { by intros [= <-]. }
  destruct (body e st) as [st1|] eqn:Eb; cbn [mbind result_bind]; [|done].
  apply IH. by eapply body_follows_scheme.
Qed.

(** *** What the counter does ensure

    Two records with the same base slug never get the same slug. *)

Lemma uint_chars_inj (d1 d2 : Decimal.uint) :
  Py.uint_chars d1 = Py.uint_chars d2 → d1 = d2.
Proof.
  revert d2. induction d1 as [|d1 IH|d1 IH|d1 IH|d1 IH|d1 IH|d1 IH|d1 IH|d1 IH
                              |d1 IH|d1 IH];
    intros [|d2|d2|d2|d2|d2|d2|d2|d2|d2|d2]; cbn [Py.uint_chars]; try done.
  all: intros [= Hd]; f_equal; by apply IH.
Qed.

Lemma str_of_int_inj (a b : Z) : Py.str_of_int a = Py.str_of_int b → a = b.
Proof.
  intros Hab. rewrite <- (DecimalZ.of_to a), <- (DecimalZ.of_to b). f_equal.
  unfold Py.str_of_int in Hab.
  pose proof (uint_chars_digits) as Hdig.
  destruct (Z.to_int a) as [d1|d1], (Z.to_int b) as [d2|d2].
  - f_equal. by apply uint_chars_inj.
  - specialize (Hdig d1). rewrite Hab in Hdig.
    by apply Forall_cons in Hdig as [? _].
  - specialize (Hdig d2). rewrite <- Hab in Hdig.
    by apply Forall_cons in Hdig as [? _].
  - injection Hab as Hab. f_equal. by apply uint_chars_inj.
Qed.

Lemma nth_slug_inj (b : str) (n1 n2 : nat) :
  nth_slug b (S n1) = nth_slug b (S n2) → n1 = n2.
Proof.
  unfold nth_slug. destruct n1 as [|n1], n2 as [|n2]; cbn [Nat.eqb]; try done.
  - intros Hb. apply (f_equal length) in Hb. rewrite !length_app in Hb.
    change (length (u "-")) with 1%nat in Hb. lia.
  - intros Hb. apply (f_equal length) in Hb. rewrite !length_app in Hb.
    change (length (u "-")) with 1%nat in Hb. lia.
  - intros Hb. do 2 apply app_inv_head in Hb.
    apply str_of_int_inj in Hb. lia.
Qed.

Lemma occurrences_app (b : str) (l1 l2 : list str) :
  occurrences b (l1 ++ l2) = (occurrences b l1 + occurrences b l2)%nat.
Proof. unfold occurrences. by rewrite List.filter_app, length_app. Qed.

Lemma occurrences_grow (l : list movie) (i j : nat) (m : movie) :
  l !! i = Some m → (i < j)%nat →
  (occurrences (base_slug m) (map base_slug (take i l))
   < occurrences (base_slug m) (map base_slug (take j l)))%nat.
Proof.
  intros Hi Hij. pose proof (lookup_lt_Some _ _ _ Hi) as Hlen.
  rewrite <- (take_drop_middle l i m Hi) at 2.
  rewrite take_app_ge by (rewrite length_take; lia).
  rewrite length_take, Nat.min_l by lia.
  destruct (j - i)%nat as [|k] eqn:Ek; [lia|]. cbn [take].
  rewrite map_app, occurrences_app. cbn [map].
  change (base_slug m :: ?t) with ([base_slug m] ++ t).
  rewrite occurrences_app. unfold occurrences at 3. cbn [List.filter].
  rewrite bool_decide_eq_true_2 by done. cbn [length]. lia.
Qed.

Lemma same_base_distinct_slugs (st : state) (i j : nat) (m1 m2 : movie) :
  follows_scheme st →
  movies st !! i = Some m1 → movies st !! j = Some m2 → i ≠ j →
  base_slug m1 = base_slug m2 → slug m1 ≠ slug m2.
Proof.
  intros [_ Hs] H1 H2 Hij Hb Heq.
  rewrite (Hs i m1 H1), (Hs j m2 H2), <- Hb in Heq.
  apply nth_slug_inj in Heq.
  destruct (decide (i < j)%nat).
  - pose proof (occurrences_grow _ i j m1 H1 ltac:(done)). lia.
  - pose proof (occurrences_grow _ j i m2 H2 ltac:(lia)) as Hg.
    rewrite <- Hb in Hg. lia.
Qed.

Lemma has_title_skipped (e : gmap str value) :
  strip_method (title_operand e) = Ok [] → has_title e = false.
Proof. unfold has_title, kept_title. by intros ->. Qed.

Lemma has_title_built (e : gmap str value) (m : movie) :
  built_from e m → has_title e = true.
Proof.
  intros (Ht & Hne & _). unfold has_title, kept_title. rewrite Ht.
  by destruct (title m).
Qed.

(** The loop only appends, one record for each entry with a title, in the
    order of the entries, and each record is the dictionary literal. *)
Lemma loop_extends (source : list (gmap str value)) (st st' : state) :
  loop source st = Ok st' →
  ∃ new, movies st' = movies st ++ new
         ∧ Forall2 built_from (List.filter has_title source) new
         ∧ Forall (λ m, m = output_record (slug m) (title m) (releaseYear m)
                              (registryYear m) (directors m)) new.
Proof.
  revert st. induction source as [|e source IH]; intros st; cbn [loop].
  { intros [= <-]. exists []. by rewrite app_nil_r. }
  destruct (body e st) as [st1|] eqn:Eb; cbn [mbind result_bind]; [|done].
  intros (new & Hm & Hb & Hr)%IH.
  apply body_inv in Eb as [[Ht ->]|(t & ry & gy & ds & Hbuilt & ->)].
  - exists new. cbn [List.filter]. by rewrite (has_title_skipped e Ht).
  - cbn [movies] in Hm. rewrite <- app_assoc in Hm.
    eexists. split; [exact Hm|]. cbn [List.filter].
    rewrite (has_title_built e _ Hbuilt).
    split; [by constructor | by constructor].
Qed.

Lemma convert_extends (source : list (gmap str value)) (out : list movie) :
  convert source = Ok out →
  Forall2 built_from (List.filter has_title source) out
  ∧ Forall (λ m, m = output_record (slug m) (title m) (releaseYear m)
                       (registryYear m) (directors m)) out.
Proof.
  unfold convert. destruct (loop source initial) as [st|] eqn:El;
    cbn [mbind result_bind]; [|done].
  intros [= <-]. by destruct (loop_extends _ _ _ El) as (new & -> & Hb & Hr).
Qed.

End LoopFacts.

(** ** Entries in ASCII *)

Section AsciiFacts.
Context `{UnicodeData}.

Lemma rstrip_elem (p : N → bool) (s : str) (x : N) :
  x ∈ Py.rstrip p s → x ∈ s.
Proof.
  unfold Py.rstrip. rewrite !list_elem_of_In, <- in_rev, <- list_elem_of_In.
  intros Hx%lstrip_elem. by rewrite list_elem_of_In, <- in_rev in Hx.
Qed.

Lemma strip_elem (s : str) (x : N) : x ∈ Py.strip s → x ∈ s.
Proof. by intros Hx%rstrip_elem%lstrip_elem. Qed.

Lemma strip_ascii (s : str) :
  forallb is_ascii s = true → forallb is_ascii (Py.strip s) = true.
Proof.
  rewrite !forallb_forall. intros Hs x Hx%list_elem_of_In%strip_elem.
  by apply Hs, list_elem_of_In.
Qed.

Lemma body_ascii (e : gmap str value) (st : state) :
  ascii_entry e = true → body e st = body (H := ascii_only) e st.
Proof.
  unfold ascii_entry. rewrite !andb_true_iff. intros [[Ht Hy] Hg].
  unfold body.
  destruct (strip_method (title_operand e)) as [t|] eqn:Et;
    cbn [mbind result_bind]; [|done].
  rewrite (parse_int_ascii _ Hy), (parse_int_ascii _ Hg).
  destruct (parse_int (dict_get e (u "yearProduced"))) as [ry|];
    cbn [mbind result_bind]; [|done].
  assert (Ha : forallb is_ascii t = true).
  { destruct (title_operand e) as [| | |s]; try done.
    injection Et as <-. by apply strip_ascii. }
  by rewrite (slugify_ascii t ry Ha).
Qed.

Lemma loop_ascii (source : list (gmap str value)) (st : state) :
  forallb ascii_entry source = true →
  loop source st = loop (H := ascii_only) source st.
Proof.
  revert st. induction source as [|e source IH]; intros st; [done|].
  cbn [forallb loop]. rewrite andb_true_iff. intros [He Hs].
  rewrite (body_ascii e st He).
  destruct (body e st) as [st1|]; cbn [mbind result_bind]; [|done].
  by apply IH.
Qed.

(** On entries in ASCII the result does not depend on the database. *)
Lemma convert_ascii (source : list (gmap str value)) :
  forallb ascii_entry source = true →
  convert source = convert (H := ascii_only) source.
Proof. intros Hs. unfold convert. by rewrite (loop_ascii source initial Hs). Qed.

End AsciiFacts.

(** ** The records of a run *)

Section RunFacts.
Context `{UnicodeData}.


(** C1, at the failing input.  The entries "Echo", "Echo" and "Echo 2",
    all without a year, give three records of which the second and the
    third have the slug "echo-2": the suffix of the second occurrence of
    "echo" meets the base slug of "Echo 2". *)
Theorem suffixed_slug_meets_base_slug :
  let out :=
    [ output_record (u "echo") (u "Echo") 0 0 [];
      output_record (u "echo-2") (u "Echo") 0 0 [];
      output_record (u "echo-2") (u "Echo 2") 0 0 [] ] in
  convert [Sample.echo_undated; Sample.echo_undated; Sample.echo_two] = Ok out
  ∧ ¬ NoDup (map slug out).
Proof.
  split.
  - rewrite convert_ascii by reflexivity. vm_compute. reflexivity.
  - intros Hnd. apply NoDup_cons in Hnd as [_ Hnd].
    apply NoDup_cons in Hnd as [Hnin _]. apply Hnin. by left.
Qed.

Lemma lstrip_all (p : N → bool) (s : str) :
  forallb p s = true → Py.lstrip p s = [].
Proof.
  induction s as [|c s IH]; [done|]. simpl.
  intros [-> Hs]%andb_true_iff. by apply IH.
Qed.

Lemma strip_all_space (s : str) :
  forallb Py.isspace s = true → Py.strip s = [].
Proof. intros Hs. unfold Py.strip. by rewrite lstrip_all. Qed.

Lemma blank_names_no_title (e : gmap str value) :
  blank_name (e !! u "originalName") = true →
  blank_name (e !! u "name") = true →
  strip_method (title_operand e) = Ok [].
Proof.
  unfold title_operand, dict_get.
  destruct (e !! u "originalName") as [[| | |[|c s]]|],
           (e !! u "name") as [[| | |[|c' s']]|];
    try done; cbn [blank_name default from_option]; unfold id;
    cbn [py_or truthy strip_method];
    intros H1 H2; by rewrite ?(strip_all_space _ H1), ?(strip_all_space _ H2).
Qed.

(** C9. An entry whose title, [originalName] before [name] and stripped,
    is empty produces no record and no error and leaves the counters as
    they are: the run is the run without the entry.  The title is empty
    when each of the two names is missing, [null] or white space only. *)
Theorem entry_without_title_skipped :
  (∀ e, strip_method (title_operand e) = Ok [] →
     (∀ st, body e st = Ok st)
     ∧ (∀ before after st,
          loop (before ++ e :: after) st = loop (before ++ after) st)
     ∧ (∀ before after,
          convert (before ++ e :: after) = convert (before ++ after)))
  ∧ (∀ e, blank_name (e !! u "originalName") = true →
          blank_name (e !! u "name") = true →
          strip_method (title_operand e) = Ok []).
Proof.
  split; [|apply blank_names_no_title].
  intros e Ht.
  assert (Hl : ∀ before after st,
             loop (before ++ e :: after) st = loop (before ++ after) st).
  { intros before after st. rewrite !loop_app.
    destruct (loop before st) as [st1|]; cbn [mbind result_bind]; [|done].
    cbn [loop]. by rewrite body_skip. }
  split_and!.
  - intros st. by apply body_skip.
  - exact Hl.
  - intros before after. unfold convert. by rewrite Hl.
Qed.

Lemma title_operand_truthy (e : gmap str value) :
  truthy (dict_get e (u "originalName")) = true →
  title_operand e = dict_get e (u "originalName").
Proof. intros Ht. unfold title_operand, py_or. by rewrite !Ht. Qed.

Lemma title_operand_falsy (e : gmap str value) :
  truthy (dict_get e (u "originalName")) = false →
  title_operand e = py_or (dict_get e (u "name")) (VStr []).
Proof. intros Ht. unfold title_operand. unfold py_or at 2. by rewrite Ht. Qed.

Lemma dict_get_falsy (e : gmap str value) (k : str) :
  truthy (dict_get e k) = false
  ↔ e !! k = None ∨ e !! k = Some VNone ∨ e !! k = Some (VStr [])
    ∨ e !! k = Some (VInt 0) ∨ e !! k = Some (VBool false).
Proof.
  unfold dict_get. destruct (e !! k) as [[|[]|z|[|c s]]|]; simpl;
    try (destruct (Z.eqb_spec z 0) as [->|Hz]; simpl);
    split; try done; try (intros _; tauto);
    intros [?|[?|[?|[?|?]]]]; congruence.
Qed.

(** C10, as amended.  The title falls back from [originalName] to [name]
    exactly when [originalName] is false as a truth value, which it is when
    the key is missing or holds [null], the empty string, the number 0 or
    [false]; an entry whose [originalName] is a non-empty string of white
    space only is skipped, whatever its [name]. *)
Theorem fallback_on_falsy_original_name :
  (∀ e, truthy (dict_get e (u "originalName")) = true →
        title_operand e = dict_get e (u "originalName"))
  ∧ (∀ e, truthy (dict_get e (u "originalName")) = false →
          title_operand e = py_or (dict_get e (u "name")) (VStr []))
  ∧ (∀ e, truthy (dict_get e (u "originalName")) = false
          ↔ e !! u "originalName" = None
            ∨ e !! u "originalName" = Some VNone
            ∨ e !! u "originalName" = Some (VStr [])
            ∨ e !! u "originalName" = Some (VInt 0)
            ∨ e !! u "originalName" = Some (VBool false))
  ∧ (∀ e s, e !! u "originalName" = Some (VStr s) → s ≠ [] →
            forallb Py.isspace s = true →
            (∀ st, body e st = Ok st)
            ∧ ∀ before after,
                convert (before ++ e :: after) = convert (before ++ after)).
Proof.
  split_and!.
  - apply title_operand_truthy.
  - apply title_operand_falsy.
  - intros e. apply dict_get_falsy.
  - intros e s He Hs Hsp.
    assert (Ht : strip_method (title_operand e) = Ok []).
    { rewrite title_operand_truthy; unfold dict_get; rewrite He;
        [|by destruct s].
      simpl. by rewrite strip_all_space. }
    split; [intros st; by apply body_skip|].
    intros before after. unfold convert. rewrite !loop_app.
    destruct (loop before initial) as [st1|]; cbn [mbind result_bind]; [|done].
    cbn [loop]. by rewrite body_skip.
Qed.

(** C2, as amended.  [releaseYear] and [registryYear] are integers, got by
    one and the same coercion from the [yearProduced] and the [yearAdded]
    of the record's own entry; the coercion never fails, gives 0 for a
    value that does not read as an integer, and gives a negative number
    only for a text with a minus sign; "abc", [null] and a missing key give
    0, "2005" gives 2005, and an integer of at most 4300 digits, as a
    number or printed, gives itself, while a longer one gives 0. *)
Theorem years_are_coerced_integers :
  (∀ v, ∃ n, parse_int v = Ok n)
  ∧ (∀ v e, (s ← Py.str_of v; Py.int_of_str s) = Raise e →
       parse_int v = Ok 0%Z)
  ∧ (∀ v n, parse_int v = Ok n → (n < 0)%Z →
       ∃ s, Py.str_of v = Ok s ∧ 45%N ∈ s)
  ∧ parse_int (VStr (u "abc")) = Ok 0%Z
  ∧ parse_int VNone = Ok 0%Z
  ∧ (∀ (e : gmap str value) k, e !! k = None →
       parse_int (dict_get e k) = Ok 0%Z)
  ∧ parse_int (VStr (u "2005")) = Ok 2005%Z
  ∧ (∀ z, (Py.int_digits z ≤ Py.int_max_str_digits)%N →
       parse_int (VInt z) = Ok z
       ∧ parse_int (VStr (Py.str_of_int z)) = Ok z)
  ∧ (∀ z, (Py.int_max_str_digits < Py.int_digits z)%N →
       parse_int (VInt z) = Ok 0%Z
       ∧ parse_int (VStr (Py.str_of_int z)) = Ok 0%Z)
  ∧ (∀ source out, convert source = Ok out →
       Forall2
         (λ e m,
            parse_int (dict_get e (u "yearProduced")) = Ok (releaseYear m)
            ∧ parse_int (dict_get e (u "yearAdded")) = Ok (registryYear m))
         (List.filter has_title source) out).
Proof.
  split_and!.
  - apply parse_int_total.
  - apply parse_int_unparseable.
  - apply parse_int_negative.
  - vm_compute. reflexivity.
  - vm_compute. reflexivity.
  - intros e k Hk. unfold dict_get. rewrite Hk. vm_compute. reflexivity.
  - vm_compute. reflexivity.
  - apply parse_int_printed.
  - apply parse_int_beyond.
  - intros source out [Hb _]%convert_extends.
    eapply Forall2_impl; [exact Hb|].
    by intros e m (_ & _ & Hy & Hg & _).
Qed.

(** Three runs on sample entries; by [convert_ascii] the database plays no
    part in them. *)
Lemma run_minus_five :
  convert [Sample.minus_five]
  = Ok [output_record (u "a--5") (u "A") (-5) (-7) []].
Proof. rewrite convert_ascii by reflexivity. vm_compute. reflexivity. Qed.

Lemma run_director_five :
  convert [Sample.director_five] = Raise AttributeError.
Proof. rewrite convert_ascii by reflexivity. vm_compute. reflexivity. Qed.

Lemma run_original_zero :
  convert [Sample.original_zero]
  = Ok [output_record (u "x") (u "X") 0 0 []].
Proof. rewrite convert_ascii by reflexivity. vm_compute. reflexivity. Qed.

(** A title operand that is not a string stops the run before the director
    is looked at. *)
Lemma run_original_true :
  convert [Sample.original_true] = Raise AttributeError.
Proof. rewrite convert_ascii by reflexivity. vm_compute. reflexivity. Qed.

Lemma parse_directors_falsy (raw : value) :
  truthy raw = false → parse_directors raw = Ok [].
Proof.
  intros Hr. unfold parse_directors, py_or. rewrite Hr. vm_compute. reflexivity.
Qed.

(** Any other value that is true as a truth value has no [translate]. *)
Lemma parse_directors_not_str (raw : value) :
  truthy raw = true → (∀ s, raw ≠ VStr s) →
  parse_directors raw = Raise AttributeError.
Proof.
  intros Hr Hs. unfold parse_directors, py_or. rewrite Hr.
  unfold Translit.transliterate. rewrite Hr.
  destruct raw as [|b|z|s]; [reflexivity..|by destruct (Hs s)].
Qed.

Lemma parse_directors_result (raw : value) :
  if str_or_falsy raw then ∃ ds, parse_directors raw = Ok ds
  else parse_directors raw = Raise AttributeError.
Proof.
  destruct raw as [|b|z|s]; cbn [str_or_falsy].
  - exists []. by apply parse_directors_falsy.
  - destruct b; cbn [truthy negb].
    + by apply parse_directors_not_str.
    + exists []. by apply parse_directors_falsy.
  - cbn [truthy]. destruct (Z.eqb_spec z 0) as [->|Hz]; cbn [negb].
    + exists []. by apply parse_directors_falsy.
    + apply parse_directors_not_str; [|done].
      cbn [truthy]. by destruct (Z.eqb_spec z 0).
  - eexists. apply parse_directors_ref_eq.
Qed.

Lemma body_result (e : gmap str value) (st : state) :
  if accepted e then ∃ st', body e st = Ok st'
  else body e st = Raise AttributeError.
Proof.
  unfold accepted, body.
  destruct (title_operand e) as [|b|z|s]; try done.
  cbn [strip_method mbind result_bind].
  destruct (parse_int_total (dict_get e (u "yearProduced"))) as [ry ->].
  cbn [mbind result_bind].
  destruct (Py.strip s) as [|c t]; cbn [truthy negb]; [by eexists|].
  destruct (parse_int_total (dict_get e (u "yearAdded"))) as [gy ->].
  cbn [mbind result_bind].
  pose proof (parse_directors_result (dict_get e (u "director"))) as Hd.
  destruct (str_or_falsy (dict_get e (u "director"))).
  - destruct Hd as [ds ->]. by eexists.
  - by rewrite Hd.
Qed.

Lemma loop_result (source : list (gmap str value)) (st : state) :
  if forallb accepted source then ∃ st', loop source st = Ok st'
  else loop source st = Raise AttributeError.
Proof.
  revert st. induction source as [|e source IH]; intros st; [by eexists|].
  cbn [forallb loop]. pose proof (body_result e st) as Hb.
  destruct (accepted e); cbn [andb].
  - destruct Hb as [st1 ->]. cbn [mbind result_bind]. apply IH.
  - by rewrite Hb.
Qed.

(** The loop body on an entry whose title operand is a string and whose
    director is false as a truth value. *)
Lemma body_falsy_director (e : gmap str value) (st : state) (s : str) :
  title_operand e = VStr s →
  truthy (dict_get e (u "director")) = false →
  (Py.strip s = [] → body e st = Ok st)
  ∧ (Py.strip s ≠ [] →
       ∃ st' m, body e st = Ok st' ∧ movies st' = movies st ++ [m]
                ∧ title m = Py.strip s ∧ directors m = []).
Proof.
  intros Ht Hd. unfold body. rewrite Ht. cbn [strip_method mbind result_bind].
  destruct (parse_int_total (dict_get e (u "yearProduced"))) as [ry ->].
  cbn [mbind result_bind].
  destruct (Py.strip s) as [|c t]; cbn [truthy negb]; [done|].
  split; [done|]. intros _.
  destruct (parse_int_total (dict_get e (u "yearAdded"))) as [gy ->].
  rewrite (parse_directors_falsy _ Hd). cbn [mbind result_bind].
  by eexists _, _.
Qed.

Lemma body_str_director (e : gmap str value) (st : state) (s d : str) :
  title_operand e = VStr s → dict_get e (u "director") = VStr d →
  ∃ st', body e st = Ok st'.
Proof.
  intros Ht Hd. pose proof (body_result e st) as Hb.
  unfold accepted in Hb. rewrite Ht, Hd in Hb.
  by destruct (Py.strip s).
Qed.

Lemma accepted_falsy_director (e : gmap str value) :
  (∃ s, title_operand e = VStr s) →
  truthy (dict_get e (u "director")) = false →
  accepted e = true.
Proof.
  intros [s Ht] Hd. unfold accepted. rewrite Ht.
  destruct (Py.strip s); [done|].
  destruct (dict_get e (u "director")); cbn [str_or_falsy]; by rewrite ?Hd.
Qed.

Lemma built_falsy_director (e : gmap str value) (m : movie) :
  built_from e m →
  parse_directors (dict_get e (u "director")) = Ok (directors m)
  ∧ (truthy (dict_get e (u "director")) = false → directors m = []).
Proof.
  intros (_ & _ & _ & _ & Hd). split; [done|].
  intros Hf. rewrite (parse_directors_falsy _ Hf) in Hd. congruence.
Qed.

(** A run on entries whose title operands are strings and whose directors
    are false as truth values ends, and every record has no directors. *)
Lemma convert_falsy_directors (source : list (gmap str value)) :
  Forall (λ e, (∃ s, title_operand e = VStr s)
               ∧ truthy (dict_get e (u "director")) = false) source →
  ∃ out, convert source = Ok out ∧ Forall (λ m, directors m = []) out.
Proof.
  intros Hs. pose proof (loop_result source initial) as Hl.
  assert (Ha : forallb accepted source = true).
  { apply forallb_forall. rewrite Forall_forall in Hs.
    intros e [Ht Hd]%list_elem_of_In%Hs. by apply accepted_falsy_director. }
  rewrite Ha in Hl. destruct Hl as [st' Hl].
  assert (Hc : convert source = Ok (movies st')) by (unfold convert; by rewrite Hl).
  exists (movies st'). split; [done|].
  destruct (convert_extends _ _ Hc) as [Hb _].
  assert (Hf : Forall (λ e, truthy (dict_get e (u "director")) = false)
                 (List.filter has_title source)).
  { rewrite Forall_forall in Hs. apply Forall_forall.
    intros e [He _]%list_elem_of_In%filter_In. apply list_elem_of_In in He.
    by destruct (Hs e He). }
  clear Hc Hl Ha Hs. induction Hb as [|e m l k Hem _ IH]; [done|].
  apply Forall_cons in Hf as [He Hf]. constructor; [|by apply IH].
  by apply (built_falsy_director e m Hem).
Qed.

(** C3, as amended.  A [director] field that is missing or false as a
    truth value ([null], the empty string, 0, [false]) is parsed to the
    empty list of directors with no error; on an entry with such a field
    whose title operand is a string the loop body raises no error, and the
    record it appends, when the stripped title is not empty, has no
    directors; nor does the loop body raise an error for a [director] that
    is a string.  A run on such entries ends with records without
    directors, and in every run the directors of a record are those parsed
    from its own entry. *)
Theorem directors_of_absent_field :
  (∀ raw, truthy raw = false → parse_directors raw = Ok [])
  ∧ (∀ (e : gmap str value) k,
       truthy (dict_get e k) = false
       ↔ e !! k = None ∨ e !! k = Some VNone ∨ e !! k = Some (VStr [])
         ∨ e !! k = Some (VInt 0) ∨ e !! k = Some (VBool false))
  ∧ (∀ e st s,
       title_operand e = VStr s →
       truthy (dict_get e (u "director")) = false →
       (Py.strip s = [] → body e st = Ok st)
       ∧ (Py.strip s ≠ [] →
            ∃ st' m, body e st = Ok st' ∧ movies st' = movies st ++ [m]
                     ∧ title m = Py.strip s ∧ directors m = []))
  ∧ (∀ e st s d,
       title_operand e = VStr s → dict_get e (u "director") = VStr d →
       ∃ st', body e st = Ok st')
  ∧ (∀ source,
       Forall (λ e, (∃ s, title_operand e = VStr s)
                    ∧ truthy (dict_get e (u "director")) = false) source →
       ∃ out, convert source = Ok out ∧ Forall (λ m, directors m = []) out)
  ∧ (∀ source out, convert source = Ok out →
       Forall2
         (λ e m,
            parse_directors (dict_get e (u "director")) = Ok (directors m)
            ∧ (truthy (dict_get e (u "director")) = false → directors m = []))
         (List.filter has_title source) out).
Proof.
  split_and!.
  - apply parse_directors_falsy.
  - apply dict_get_falsy.
  - apply body_falsy_director.
  - apply body_str_director.
  - apply convert_falsy_directors.
  - intros source out [Hb _]%convert_extends.
    eapply Forall2_impl; [exact Hb|]. apply built_falsy_director.
Qed.

End RunFacts.

(** ** The pattern of a slug *)

Section RegexFacts.
Import Regex.

Lemma lang_nullable (r : regex) : lang r [] → nullable r = true.
Proof.
  intros Hl. remember [] as s eqn:Es.
  induction Hl as [|p c Hc|r1 r2 s1 s2 _ IH1 _ IH2|r1 r2 s _ IH|r1 r2 s _ IH
                   |r|r s1 s2 _ _ _ _]; simpl; try done.
  - apply app_eq_nil in Es as [-> ->].
    by rewrite IH1, IH2.
  - by rewrite IH.
  - rewrite IH by done. apply orb_true_r.
Qed.

Lemma lang_deriv (r : regex) (c : N) (s : str) :
  lang r (c :: s) → lang (deriv c r) s.
Proof.
  intros Hl. remember (c :: s) as w eqn:Ew. revert c s Ew.
  induction Hl as [|p a Ha|r1 r2 s1 s2 Hl1 IH1 Hl2 IH2|r1 r2 w Hl IH
                   |r1 r2 w Hl IH|r|r s1 s2 Hl1 IH1 Hl2 IH2];
    intros c s Ew; simpl.
  - done.
  - injection Ew as -> <-. rewrite Ha. constructor.
  - destruct s1 as [|a s1]; simpl in Ew.
    + subst s2. rewrite (lang_nullable _ Hl1).
      apply lang_alt_r. by apply IH2.
    + injection Ew as -> <-.
      destruct (nullable r1); [apply lang_alt_l|];
        (apply lang_cat; [by apply IH1 | done]).
  - apply lang_alt_l. by apply IH.
  - apply lang_alt_r. by apply IH.
  - done.
  - destruct s1 as [|a s1]; simpl in Ew.
    + subst s2. by apply IH2.
    + injection Ew as -> <-. apply lang_cat; [by apply IH1 | done].
Qed.

(** The matcher accepts every string of the language. *)
Lemma fullmatch_complete (r : regex) (s : str) :
  lang r s → fullmatch r s = true.
Proof.
  revert r. induction s as [|c s IH]; intros r Hl; simpl.
  - by apply lang_nullable.
  - by apply IH, lang_deriv.
Qed.

Lemma nullable_lang (r : regex) : nullable r = true → lang r [].
Proof.
  induction r as [| |p|r1 IH1 r2 IH2|r1 IH1 r2 IH2|r IH]; simpl; try done.
  - intros _. constructor.
  - intros [H1 H2]%andb_true_iff.
    apply (lang_cat r1 r2 [] []); [by apply IH1 | by apply IH2].
  - intros [H1|H2]%orb_true_iff;
      [apply lang_alt_l; by apply IH1 | apply lang_alt_r; by apply IH2].
  - intros _. constructor.
Qed.

Lemma deriv_lang (r : regex) (c : N) (s : str) :
  lang (deriv c r) s → lang r (c :: s).
Proof.
  revert s. induction r as [| |p|r1 IH1 r2 IH2|r1 IH1 r2 IH2|r IH];
    intros s; simpl.
  - inversion 1.
  - inversion 1.
  - destruct (p c) eqn:Ec; inversion 1; subst. by constructor.
  - assert (Hcat : lang (Cat (deriv c r1) r2) s → lang (Cat r1 r2) (c :: s)).
    { inversion 1 as [| |? ? s1 s2 Hl1 Hl2| | | |]; subst.
      apply (lang_cat r1 r2 (c :: s1) s2); [by apply IH1 | done]. }
    destruct (nullable r1) eqn:En; [|exact Hcat].
    inversion 1 as [| | |? ? ? Hl|? ? ? Hr| |]; subst; [by apply Hcat|].
    apply (lang_cat r1 r2 [] (c :: s)); [by apply nullable_lang | by apply IH2].
  - inversion 1 as [| | |? ? ? Hl|? ? ? Hr| |]; subst;
      [apply lang_alt_l; by apply IH1 | apply lang_alt_r; by apply IH2].
  - inversion 1 as [| |? ? s1 s2 Hl1 Hl2| | | |]; subst.
    apply (lang_star_cons r (c :: s1) s2); [by apply IH | done].
Qed.

(** The matcher decides the language. *)
Lemma fullmatch_lang (r : regex) (s : str) :
  fullmatch r s = true ↔ lang r s.
Proof.
  split; [|apply fullmatch_complete].
  revert r. induction s as [|c s IH]; intros r; simpl.
  - apply nullable_lang.
  - intros Hm. by apply deriv_lang, IH.
Qed.

Lemma lang_star_class (p : N → bool) (w : str) :
  Forall (λ c, p c = true) w → lang (Star (Class p)) w.
Proof.
  induction 1 as [|c w Hc _ IH]; [constructor|].
  apply (lang_star_cons _ [c] w); [by constructor | done].
Qed.

Lemma lang_plus_class (p : N → bool) (c : N) (w : str) :
  p c = true → Forall (λ c, p c = true) w → lang (Plus (Class p)) (c :: w).
Proof.
  intros Hc Hw. apply (lang_cat _ _ [c] w); [by constructor|].
  by apply lang_star_class.
Qed.

Lemma alnum_hyphen (c : N) : Py.alnum c = true → (c =? 45)%N = false.
Proof. destruct (N.eqb_spec c 45) as [->|]; [by vm_compute | done]. Qed.

Lemma is_digit_alnum (c : N) : Py.is_digit c = true → Py.alnum c = true.
Proof. unfold Py.alnum. intros ->. apply orb_true_r. Qed.

Lemma joined_split (s : str) :
  (joined true s = true →
   ∃ w t, s = w ++ t ∧ Forall (λ c, Py.alnum c = true) w
          ∧ lang (Star (Cat (Chr 45) (Plus (Class Py.alnum)))) t)
  ∧ (joined false s = true →
     ∃ c w t, s = c :: w ++ t ∧ Py.alnum c = true
              ∧ Forall (λ c, Py.alnum c = true) w
              ∧ lang (Star (Cat (Chr 45) (Plus (Class Py.alnum)))) t).
Proof.
  induction s as [|c s [IHa IHb]].
  - split; [|done]. intros _. exists [], []. repeat split; constructor.
  - split; simpl; destruct (Py.alnum c) eqn:Ec.
    + intros (w & t & -> & Hw & Ht)%IHa. exists (c :: w), t.
      repeat split; [by constructor | done].
    + rewrite andb_true_r. intros [Hc Hj]%andb_true_iff.
      apply N.eqb_eq in Hc as ->.
      destruct (IHb Hj) as (c' & w & t & -> & Hc' & Hw & Ht).
      exists [], (45%N :: c' :: w ++ t). repeat split; [constructor|].
      apply (lang_star_cons _ (45%N :: c' :: w) t); [|done].
      apply (lang_cat _ _ [45%N] (c' :: w)); [by constructor|].
      by apply lang_plus_class.
    + intros (w & t & -> & Hw & Ht)%IHa. by exists c, w, t.
    + by rewrite andb_false_r.
Qed.

Lemma joined_words (s : str) : joined false s = true → lang words s.
Proof.
  intros (c & w & t & -> & Hc & Hw & Ht)%joined_split.
  apply (lang_cat _ _ (c :: w) t); [|done]. by apply lang_plus_class.
Qed.

Lemma joined_all (w : str) :
  Forall (λ c, Py.alnum c = true) w → joined true w = true.
Proof. induction 1 as [|c w Hc _ IH]; [done|]. simpl. by rewrite Hc. Qed.

Lemma joined_suffix (inside : bool) (s w : str) :
  joined inside s = true → w ≠ [] → Forall (λ c, Py.alnum c = true) w →
  joined inside (s ++ 45%N :: w) = true.
Proof.
  intros Hs Hne Hw. revert inside Hs.
  induction s as [|c s IH]; intros inside; simpl.
  - intros ->. destruct Hw as [|d w Hd Hw]; [done|].
    change (Py.alnum 45) with false. simpl. rewrite Hd. by apply joined_all.
  - destruct (Py.alnum c); [apply IH|].
    intros [Hc Hj]%andb_true_iff. rewrite Hc. simpl. by apply IH.
Qed.

Lemma not_alnum_negb (c : N) : Py.not_alnum c = negb (Py.alnum c).
Proof. done. Qed.

Lemma not_alnum_hyphen (c : N) : Py.alnum c = false ∨ Ref.hyphen c = false.
Proof.
  destruct (Py.alnum c) eqn:Ec; [right|by left]. by apply alnum_hyphen.
Qed.

Lemma sub_runs_spaced (s : str) :
  spaced false (Py.sub_runs Py.not_alnum [45%N] false s) = true
  ∧ spaced true (Py.sub_runs Py.not_alnum [45%N] true s) = true.
Proof.
  induction s as [|c s [IH1 IH2]]; [done|].
  cbn [Py.sub_runs]. rewrite not_alnum_negb.
  destruct (Py.alnum c) eqn:Ec; cbn [negb app spaced].
  - by rewrite Ec.
  - done.
Qed.

Lemma spaced_lstrip (after : bool) (s : str) :
  spaced after s = true →
  Py.lstrip Ref.hyphen s = []
  ∨ ∃ c s', Py.lstrip Ref.hyphen s = c :: s' ∧ Py.alnum c = true
            ∧ spaced false s' = true.
Proof.
  revert after. induction s as [|c s IH]; intros after; [by left|].
  cbn [spaced Py.lstrip]. destruct (Py.alnum c) eqn:Ec.
  - destruct (not_alnum_hyphen c) as [?| ->]; [congruence|].
    intros Hs. right. by exists c, s.
  - intros [[Hc _]%andb_true_iff Hs]%andb_true_iff.
    unfold Ref.hyphen. rewrite Hc. by apply (IH true).
Qed.

Lemma rtrim_joined (s : str) :
  (spaced true s = true →
   Ref.rtrim Ref.hyphen s = [] ∨ joined false (Ref.rtrim Ref.hyphen s) = true)
  ∧ (spaced false s = true → joined true (Ref.rtrim Ref.hyphen s) = true).
Proof.
  induction s as [|c s [IHa IHb]]; [by split; [left|]|].
  split; cbn [spaced Ref.rtrim]; destruct (Py.alnum c) eqn:Ec.
  - intros Hj%IHb. right.
    destruct (not_alnum_hyphen c) as [?| ->]; [congruence|].
    destruct (Ref.rtrim Ref.hyphen s); cbn [joined]; by rewrite Ec.
  - by rewrite andb_false_r.
  - intros Hj%IHb.
    destruct (not_alnum_hyphen c) as [?| ->]; [congruence|].
    destruct (Ref.rtrim Ref.hyphen s); cbn [joined]; by rewrite Ec.
  - rewrite andb_true_r. intros [Hc [Hnil|Hj]%IHa]%andb_true_iff.
    + rewrite Hnil. unfold Ref.hyphen. by rewrite Hc.
    + destruct (Ref.rtrim Ref.hyphen s) as [|k kept]; [done|].
      cbn [joined]. by rewrite Ec, Hc.
Qed.

(** A title, once cleaned, is empty or words joined by single hyphens. *)
Lemma cleaned_shape (s : str) :
  let t := Py.strip_chars (u "-") (Py.sub_runs Py.not_alnum (u "-") false s) in
  t = [] ∨ joined false t = true.
Proof.
  intros t. subst t.
  rewrite (strip_chars_trim _ Ref.hyphen) by apply mem_hyphen.
  unfold Ref.trim. rewrite <- lstrip_ltrim. change (u "-") with [45%N].
  destruct (spaced_lstrip false _ (proj1 (sub_runs_spaced s)))
    as [->|(c & s' & -> & Hc & Hs)]; [by left|].
  right. apply rtrim_joined in Hs. cbn [Ref.rtrim].
  destruct (not_alnum_hyphen c) as [?| ->]; [congruence|].
  destruct (Ref.rtrim Ref.hyphen s'); cbn [joined]; by rewrite Hc.
Qed.

Lemma slugify_joined `{UnicodeData} (title : str) (year : Z) :
  (0 ≤ year)%Z → joined false (slugify title year) = true.
Proof.
  intros Hy. unfold slugify.
  set (a := Py.lower _).
  assert (Hcore : joined false
            match Py.strip_chars (u "-")
                    (Py.sub_runs Py.not_alnum (u "-") false a) with
            | [] => u "film"
            | c :: t => c :: t
            end = true).
  { destruct (cleaned_shape a) as [->|Hj]; [by vm_compute|].
    by destruct (Py.strip_chars _ _). }
  destruct (Z.eqb_spec year 0) as [->|Hne]; cbn [negb].
  - destruct (Py.strip_chars _ _); exact Hcore.
  - change (u "-" ++ Py.str_of_int year) with (45%N :: Py.str_of_int year).
    destruct (Py.strip_chars _ _);
      (apply joined_suffix;
       [exact Hcore
       |apply str_of_int_pos; lia
       |eapply Forall_impl; [apply str_of_int_nonneg; lia|];
        apply is_digit_alnum]).
Qed.

Lemma nth_slug_pattern (b : str) (n : nat) :
  joined false b = true → lang slug_pattern (nth_slug b (S n)).
Proof.
  intros Hb%joined_words. unfold nth_slug, slug_pattern.
  destruct n as [|n]; cbn [Nat.eqb].
  - rewrite <- (app_nil_r b). apply lang_cat; [done|].
    apply lang_alt_l. constructor.
  - apply lang_cat; [done|]. apply lang_alt_r.
    change (u "-") with [45%N]. apply lang_cat; [by constructor|].
    pose proof (str_of_int_nonneg (Z.of_nat (S (S n))) ltac:(lia)) as Hd.
    pose proof (str_of_int_pos (Z.of_nat (S (S n))) ltac:(lia)) as Hne.
    destruct Hd as [|d ds Hd Hds]; [done|]. by apply lang_plus_class.
Qed.

(** C7, as amended.  For every record whose release year is not negative,
    the slug is not empty and matches
    [[a-z0-9]+(-[a-z0-9]+)*(-N)?]. *)
Theorem slug_matches_pattern `{UnicodeData}
    (source : list (gmap str value)) (out : list movie) (m : movie) :
  convert source = Ok out → m ∈ out → (0 ≤ releaseYear m)%Z →
  slug m ≠ [] ∧ fullmatch slug_pattern (slug m) = true.
Proof.
  unfold convert. destruct (loop source initial) as [st|] eqn:El;
    cbn [mbind result_bind]; [|done].
  intros [= <-] [i Hi]%list_elem_of_lookup Hy.
  apply loop_follows_scheme in El as [_ Hs]; [|apply initial_follows_scheme].
  assert (Hm : fullmatch slug_pattern (slug m) = true).
  { rewrite (Hs i m Hi). apply fullmatch_complete, nth_slug_pattern.
    by apply slugify_joined. }
  split; [|done]. intros Hnil. by rewrite Hnil in Hm.
Qed.

End RegexFacts.

(** ** The theorems at sample inputs *)

Section Instances.
Import Regex.

Lemma transliterate_by_table_at_latin :
  ([74%N] ∉ Translit.CYRILLIC_MAP.*1) ∧ Ref.table_image 74 = [74%N].
Proof.
  assert (Hk : [74%N] ∉ Translit.CYRILLIC_MAP.*1).
  { apply (bool_decide_unpack _). vm_compute. exact I. }
  split; [exact Hk|].
  exact (proj1 (proj2 (proj2 transliterate_by_table)) 74%N Hk).
Defined.

Lemma slugify_four_steps_at_cyrillic :
  forallb Py.not_alnum
    (Py.lower (List.filter is_ascii
                 (nfkd (UnicodeData := ascii_only) Sample.ivan_petrov))) = true
  ∧ slugify (H := ascii_only) Sample.ivan_petrov 1999 = u "film-1999".
Proof.
  split; [vm_compute; reflexivity|].
  apply (proj2 (proj2 (proj2 (proj2 (slugify_four_steps (H := ascii_only)))))
           Sample.ivan_petrov 1999%Z).
  vm_compute. reflexivity.
Defined.


Lemma slug_matches_pattern_at_echo :
  let m := output_record (u "echo-2019-2") (u "Echo") 2019 0 [] in
  let out := [output_record (u "echo-2019") (u "Echo") 2019 0 []; m] in
  convert (H := ascii_only) [Sample.echo; Sample.echo] = Ok out
  ∧ m ∈ out
  ∧ (0 ≤ releaseYear m)%Z
  ∧ slug m ≠ []
  ∧ fullmatch slug_pattern (slug m) = true.
Proof.
  intros m out.
  assert (Hc : convert (H := ascii_only) [Sample.echo; Sample.echo] = Ok out)
    by (vm_compute; reflexivity).
  assert (Hm : m ∈ out) by (right; left).
  assert (Hy : (0 ≤ releaseYear m)%Z) by (simpl; lia).
  split; [exact Hc|]. split; [exact Hm|]. split; [exact Hy|].
  exact (slug_matches_pattern (H := ascii_only) _ out m Hc Hm Hy).
Defined.

Lemma entry_without_title_skipped_at_untitled :
  strip_method (title_operand Sample.untitled) = Ok []
  ∧ convert (H := ascii_only) ([Sample.echo] ++ Sample.untitled :: [Sample.echo])
    = convert (H := ascii_only) ([Sample.echo] ++ [Sample.echo]).
Proof.
  assert (Ht : strip_method (title_operand Sample.untitled) = Ok [])
    by (vm_compute; reflexivity).
  split; [exact Ht|].
  exact (proj2 (proj2 (proj1 (entry_without_title_skipped (H := ascii_only))
                         Sample.untitled Ht))
           [Sample.echo] [Sample.echo]).
Defined.

Lemma fallback_on_falsy_original_name_at_blank :
  Sample.original_blank !! u "originalName" = Some (VStr (u "  "))
  ∧ u "  " ≠ []
  ∧ forallb Py.isspace (u "  ") = true
  ∧ convert (H := ascii_only) ([] ++ Sample.original_blank :: [Sample.echo])
    = convert (H := ascii_only) ([] ++ [Sample.echo]).
Proof.
  assert (He : Sample.original_blank !! u "originalName"
               = Some (VStr (u "  "))) by (vm_compute; reflexivity).
  assert (Hs : u "  " ≠ []) by (vm_compute; discriminate).
  assert (Hsp : forallb Py.isspace (u "  ") = true) by (vm_compute; reflexivity).
  split; [exact He|]. split; [exact Hs|]. split; [exact Hsp|].
  exact (proj2 (proj2 (proj2 (proj2
                  (fallback_on_falsy_original_name (H := ascii_only))))
                  Sample.original_blank (u "  ") He Hs Hsp)
           [] [Sample.echo]).
Defined.

Lemma years_are_coerced_integers_at_minus_five :
  (parse_int (H := ascii_only) (VStr (u "-5")) = Ok (-5)%Z
   ∧ (-5 < 0)%Z
   ∧ ∃ s, Py.str_of (VStr (u "-5")) = Ok s ∧ 45%N ∈ s)
  ∧ ((Py.int_digits 2005 ≤ Py.int_max_str_digits)%N
     ∧ parse_int (H := ascii_only) (VInt 2005) = Ok 2005%Z
     ∧ parse_int (H := ascii_only) (VStr (Py.str_of_int 2005)) = Ok 2005%Z).
Proof.
  assert (Hp : parse_int (H := ascii_only) (VStr (u "-5")) = Ok (-5)%Z)
    by (vm_compute; reflexivity).
  assert (Hn : (-5 < 0)%Z) by lia.
  assert (Hd : (Py.int_digits 2005 ≤ Py.int_max_str_digits)%N)
    by (vm_compute; discriminate).
  pose proof (years_are_coerced_integers (H := ascii_only))
    as (_ & _ & Hneg & _ & _ & _ & _ & Hprinted & _).
  split.
  - split; [exact Hp|]. split; [exact Hn|].
    exact (Hneg (VStr (u "-5")) (-5)%Z Hp Hn).
  - split; [exact Hd|]. exact (Hprinted 2005%Z Hd).
Defined.

Lemma directors_of_absent_field_at_original_zero :
  title_operand Sample.original_zero = VStr (u "X")
  ∧ truthy (dict_get Sample.original_zero (u "director")) = false
  ∧ Py.strip (u "X") ≠ []
  ∧ ∃ st' m,
      body (H := ascii_only) Sample.original_zero initial = Ok st'
      ∧ movies st' = movies initial ++ [m]
      ∧ title m = Py.strip (u "X") ∧ directors m = [].
Proof.
  assert (Ht : title_operand Sample.original_zero = VStr (u "X"))
    by (vm_compute; reflexivity).
  assert (Hd : truthy (dict_get Sample.original_zero (u "director")) = false)
    by (vm_compute; reflexivity).
  assert (Hs : Py.strip (u "X") ≠ []) by (vm_compute; discriminate).
  pose proof (directors_of_absent_field (H := ascii_only))
    as (_ & _ & Hbody & _).
  split; [exact Ht|]. split; [exact Hd|]. split; [exact Hs|].
  exact (proj2 (Hbody Sample.original_zero initial (u "X") Ht Hd) Hs).
Defined.

(** C2: the entry with the years "-5" and "-7" gives a record whose
    [releaseYear] and [registryYear] are negative. *)
Lemma years_may_be_negative :
  ∃ m, convert (H := ascii_only) [Sample.minus_five] = Ok [m]
       ∧ (releaseYear m < 0)%Z ∧ (registryYear m < 0)%Z.
Proof.
  eexists. split; [apply run_minus_five|]. simpl. lia.
Qed.

(** C3: the number 5 as [director] raises [AttributeError], and the run
    with it, although the title of the entry is a string. *)
Lemma director_number_raises :
  truthy (VInt 5) = true
  ∧ parse_directors (VInt 5) = Raise AttributeError
  ∧ convert (H := ascii_only) [Sample.director_five] = Raise AttributeError.
Proof.
  split; [reflexivity|]. split; [reflexivity|]. apply run_director_five.
Qed.

(** C6: a period at the head of a piece is stripped by the program, and
    kept by the algorithm as the specification words it. *)
Lemma leading_period_is_stripped :
  parse_directors (VStr (u ".John Smith")) = Ok [u "John Smith"]
  ∧ Ref.parse_directors_as_written (u ".John Smith") = [u ".John Smith"]
  ∧ parse_directors (VStr (u ".John Smith"))
    ≠ Ok (Ref.parse_directors_as_written (u ".John Smith")).
Proof.
  split; [vm_compute; reflexivity|]. split; [vm_compute; reflexivity|].
  vm_compute. discriminate.
Qed.

(** C7: with the year "-5" the slug is "a--5", which the pattern does not
    match. *)
Lemma negative_year_breaks_pattern :
  ∃ m, convert (H := ascii_only) [Sample.minus_five] = Ok [m]
       ∧ slug m = u "a--5"
       ∧ fullmatch slug_pattern (slug m) = false
       ∧ ¬ lang slug_pattern (slug m).
Proof.
  eexists. split; [apply run_minus_five|].
  split; [reflexivity|]. split; [vm_compute; reflexivity|].
  intros Hl%fullmatch_lang. vm_compute in Hl. discriminate.
Qed.

(** C10: with the number 0 as [originalName], which is neither missing nor
    the empty string, the title is taken from [name]. *)
Lemma fallback_on_zero_original_name :
  Sample.original_zero !! u "originalName" = Some (VInt 0)
  ∧ ¬ (Sample.original_zero !! u "originalName" = None
       ∨ Sample.original_zero !! u "originalName" = Some (VStr []))
  ∧ title_operand Sample.original_zero
    = dict_get Sample.original_zero (u "name")
  ∧ convert (H := ascii_only) [Sample.original_zero]
    = Ok [output_record (u "x") (u "X") 0 0 []].
Proof.
  assert (He : Sample.original_zero !! u "originalName" = Some (VInt 0))
    by (vm_compute; reflexivity).
  split; [exact He|]. split; [rewrite He; intros [?|?]; discriminate|].
  split; [vm_compute; reflexivity | apply run_original_zero].
Qed.

End Instances.

(** * Further properties of the program *)

(** ** The run as a whole *)

Section MoreRunFacts.
Context `{UnicodeData}.

(** X1. The output holds one record for each entry that has a title, in the
    order of the input, and each record is built from its entry: the
    records are as many as the entries with a title, never more than the
    entries. *)
Theorem records_follow_entries
    (source : list (gmap str value)) (out : list movie) :
  convert source = Ok out →
  Forall2 built_from (List.filter has_title source) out
  ∧ length out = length (List.filter has_title source)
  ∧ length out ≤ length source.
Proof.
  intros [Hb _]%convert_extends. split; [done|].
  apply Forall2_length in Hb. split; [done|].
  rewrite <- Hb. apply List.filter_length_le.
Qed.

(** X2. Whatever the input, the eight fields that the program does not
    compute hold their fixed values in every record: empty lists, empty
    strings and a runtime of 0. *)
Theorem placeholder_fields_fixed
    (source : list (gmap str value)) (out : list movie) (m : movie) :
  convert source = Ok out → m ∈ out →
  cast m = [] ∧ runtimeMinutes m = 0%Z ∧ genres m = []
  ∧ logline m = [] ∧ summary m = [] ∧ whyImportant m = []
  ∧ watchUrl m = [] ∧ image m = [].
Proof.
  intros [_ Hr]%convert_extends Hm.
  rewrite Forall_forall in Hr. rewrite (Hr m Hm). by repeat split.
Qed.

Lemma lstrip_head (p : N → bool) (s : str) (c : N) (t : str) :
  Py.lstrip p s = c :: t → p c = false.
Proof.
  induction s as [|a s IH]; [done|]. simpl.
  destruct (p a) eqn:Ea; [done|]. by intros [= <- _].
Qed.

Lemma lstrip_idem (p : N → bool) (s : str) :
  Py.lstrip p (Py.lstrip p s) = Py.lstrip p s.
Proof.
  destruct (Py.lstrip p s) as [|c t] eqn:E; [done|].
  simpl. by rewrite (lstrip_head p s c t E).
Qed.

Lemma rstrip_idem (p : N → bool) (s : str) :
  Py.rstrip p (Py.rstrip p s) = Py.rstrip p s.
Proof. unfold Py.rstrip. by rewrite rev_involutive, lstrip_idem. Qed.

Lemma rstrip_last (p : N → bool) (s : str) (c : N) :
  last (Py.rstrip p s) = Some c → p c = false.
Proof.
  unfold Py.rstrip. destruct (Py.lstrip p (rev s)) as [|a t] eqn:E; [done|].
  simpl. rewrite last_snoc. intros [= <-]. by apply (lstrip_head p _ _ _ E).
Qed.

(** Stripping at the right keeps a head that is not stripped. *)
Lemma rstrip_keeps_head (p : N → bool) (c : N) (t : str) :
  p c = false → ∃ t', Py.rstrip p (c :: t) = c :: t'.
Proof.
  intros Hc. rewrite rstrip_rtrim. simpl.
  destruct (Ref.rtrim p t); rewrite ?Hc; by eexists.
Qed.

Lemma strip_with_idem (p : N → bool) (s : str) :
  let t := Py.rstrip p (Py.lstrip p s) in
  Py.rstrip p (Py.lstrip p t) = t.
Proof.
  intros t. subst t. destruct (Py.lstrip p s) as [|c r] eqn:E; [done|].
  destruct (rstrip_keeps_head p c r (lstrip_head p s c r E)) as [t' Et].
  rewrite Et. simpl. rewrite (lstrip_head p s c r E).
  rewrite <- Et. apply rstrip_idem.
Qed.

Lemma strip_with_ends (p : N → bool) (s : str) :
  let t := Py.rstrip p (Py.lstrip p s) in
  (∀ c, head t = Some c → p c = false) ∧ (∀ c, last t = Some c → p c = false).
Proof.
  intros t. subst t. split; [|apply rstrip_last].
  destruct (Py.lstrip p s) as [|c r] eqn:E; [done|].
  destruct (rstrip_keeps_head p c r (lstrip_head p s c r E)) as [t' ->].
  intros c' [= <-]. by apply (lstrip_head p s c r E).
Qed.

(** X3. The title of every record is not empty and is stripped: it neither
    begins nor ends with white space, and stripping it again changes
    nothing. *)
Theorem titles_are_stripped
    (source : list (gmap str value)) (out : list movie) (m : movie) :
  convert source = Ok out → m ∈ out →
  title m ≠ []
  ∧ Py.strip (title m) = title m
  ∧ (∀ c, head (title m) = Some c → Py.isspace c = false)
  ∧ (∀ c, last (title m) = Some c → Py.isspace c = false).
Proof.
  intros Hc Hm.
  destruct (convert_built _ _ Hc m Hm) as (e & _ & Ht & Hne & _).
  split; [done|].
  destruct (title_operand e) as [| | |s]; try done. injection Ht as <-.
  split; [apply (strip_with_idem Py.isspace)|].
  apply (strip_with_ends Py.isspace).
Qed.

Lemma loop_prefix (source : list (gmap str value)) (st st' : state) :
  loop source st = Ok st' → movies st `prefix_of` movies st'.
Proof. intros (new & -> & _)%loop_extends. by apply prefix_app_r. Qed.

(** X4. Entries that follow do not touch the records before them: the
    output of a run on [before ++ after] begins with the output of the run
    on [before], which does not fail either. *)
Theorem earlier_records_unchanged
    (before after : list (gmap str value)) (out : list movie) :
  convert (before ++ after) = Ok out →
  ∃ out1, convert before = Ok out1 ∧ out1 `prefix_of` out.
Proof.
  unfold convert. rewrite loop_app.
  destruct (loop before initial) as [st1|] eqn:E1;
    cbn [mbind result_bind]; [|done].
  destruct (loop after st1) as [st2|] eqn:E2;
    cbn [mbind result_bind]; [|done].
  intros [= <-]. exists (movies st1). split; [done|].
  by apply (loop_prefix after).
Qed.

(** X5. The run succeeds exactly on the inputs all of whose entries are
    accepted: the title operand is a string and, unless the title is empty,
    the director is a string or false as a truth value.  On every other
    input it raises [AttributeError]; it raises nothing else. *)
Theorem convert_succeeds_iff_accepted (source : list (gmap str value)) :
  (forallb accepted source = true → ∃ out, convert source = Ok out)
  ∧ (forallb accepted source = false → convert source = Raise AttributeError)
  ∧ (∀ x, convert source = Raise x → x = AttributeError).
Proof.
  unfold convert. pose proof (loop_result source initial) as Hl.
  destruct (forallb accepted source).
  - destruct Hl as [st ->]. split_and!; [by eexists|done|done].
  - rewrite Hl. split_and!; [done|done|by intros x [= <-]].
Qed.

(** X6. Two records of one run that have the same base slug never have the
    same slug. *)
Theorem same_base_slugs_differ
    (source : list (gmap str value)) (out : list movie)
    (i j : nat) (m1 m2 : movie) :
  convert source = Ok out →
  out !! i = Some m1 → out !! j = Some m2 → i ≠ j →
  base_slug m1 = base_slug m2 → slug m1 ≠ slug m2.
Proof.
  unfold convert. destruct (loop source initial) as [st|] eqn:El;
    cbn [mbind result_bind]; [|done].
  intros [= <-]. apply same_base_distinct_slugs.
  by apply (loop_follows_scheme _ _ _ initial_follows_scheme El).
Qed.

Lemma occurrences_absent (b : str) (l : list str) :
  b ∉ l → occurrences b l = 0%nat.
Proof.
  unfold occurrences. induction l as [|x l IH]; [done|].
  intros [Hx Hl]%not_elem_of_cons. cbn [List.filter].
  rewrite bool_decide_eq_false_2 by done. by apply IH.
Qed.

(** X7. When the base slugs of the records are pairwise distinct, no slug
    gets a suffix: every slug is its base slug, and the slugs are pairwise
    distinct. *)
Theorem distinct_base_slugs_kept
    (source : list (gmap str value)) (out : list movie) :
  convert source = Ok out → NoDup (map base_slug out) →
  map slug out = map base_slug out ∧ NoDup (map slug out).
Proof.
  unfold convert. destruct (loop source initial) as [st|] eqn:El;
    cbn [mbind result_bind]; [|done].
  intros [= <-] Hnd.
  destruct (loop_follows_scheme _ _ _ initial_follows_scheme El) as [_ Hs].
  set (out := movies st) in *.
  assert (Heq : map slug out = map base_slug out); [|by rewrite Heq].
  apply list_eq. intros i. rewrite !list_lookup_fmap.
  destruct (out !! i) as [m|] eqn:Hi; [|done]. cbn [fmap option_fmap option_map].
  f_equal. rewrite (Hs i m Hi).
  rewrite occurrences_absent; [done|].
  intros Hin. apply list_elem_of_lookup in Hin as [j Hj].
  rewrite list_lookup_fmap in Hj.
  destruct (take i out !! j) as [m'|] eqn:Et; [|done].
  apply lookup_take_Some in Et as [Hj' Hlt]. injection Hj as Hb.
  assert (Hi' : map base_slug out !! i = Some (base_slug m))
    by (by rewrite list_lookup_fmap, Hi).
  assert (Hj'' : map base_slug out !! j = Some (base_slug m))
    by (rewrite list_lookup_fmap, Hj'; cbn; by rewrite Hb).
  pose proof (NoDup_lookup _ _ _ _ Hnd Hj'' Hi'). lia.
Qed.

End MoreRunFacts.

(** ** More on the transliterator *)

Section MoreTranslitFacts.
Import Translit.

Lemma in_table_pair (c : N) :
  in_table c = true → ∃ v, ([c], v) ∈ CYRILLIC_MAP ∧ Ref.table_image c = v.
Proof.
  unfold in_table. intros Hin%bool_decide_eq_true.
  apply list_elem_of_fmap in Hin as ([k v] & Hk & Hin). simpl in Hk. subst k.
  pose proof table_image_pairs as Hp. rewrite Forall_forall in Hp.
  destruct (Hp _ Hin) as (c' & [= <-] & Hv). by exists v.
Qed.

Lemma in_table_not_ascii (c : N) : in_table c = true → is_ascii c = false.
Proof.
  intros (v & Hin & _)%in_table_pair.
  assert (Hb : forallb (λ kv : str * str,
                 match kv.1 with
                 | [x] => negb (is_ascii x)
                 | _ => false
                 end) CYRILLIC_MAP = true) by (vm_compute; reflexivity).
  rewrite forallb_forall in Hb. apply list_elem_of_In, Hb in Hin.
  simpl in Hin. by apply negb_true_iff in Hin.
Qed.

Lemma table_image_in_table (c : N) :
  in_table c = true → forallb is_ascii (Ref.table_image c) = true.
Proof.
  intros (v & Hin & ->)%in_table_pair.
  assert (Hb : forallb (λ kv : str * str, forallb is_ascii kv.2)
                 CYRILLIC_MAP = true) by (vm_compute; reflexivity).
  rewrite forallb_forall in Hb. by apply list_elem_of_In, Hb in Hin.
Qed.

Lemma table_image_not_in_table (c : N) :
  in_table c = false → Ref.table_image c = [c].
Proof.
  unfold in_table. intros Hc%bool_decide_eq_false.
  unfold Ref.table_image. by rewrite find_key_absent.
Qed.

Lemma ascii_not_in_table (c : N) : is_ascii c = true → in_table c = false.
Proof.
  intros Ha. destruct (in_table c) eqn:E; [|done].
  apply in_table_not_ascii in E. congruence.
Qed.

Lemma translate_app (a b : str) :
  translate TRANS_TABLE (a ++ b)
  = translate TRANS_TABLE a ++ translate TRANS_TABLE b.
Proof. by rewrite !translate_concat, map_app, concat_app. Qed.

Lemma translate_fixed (s : str) :
  Forall (λ c, in_table c = false) s → translate TRANS_TABLE s = s.
Proof.
  rewrite translate_images. unfold Ref.transliterate.
  induction 1 as [|c s Hc _ IH]; [done|].
  cbn [map concat]. by rewrite IH, (table_image_not_in_table c Hc).
Qed.

Lemma translate_no_table_letter (s : str) :
  Forall (λ c, in_table c = false) (translate TRANS_TABLE s).
Proof.
  rewrite translate_images. unfold Ref.transliterate.
  induction s as [|c s IH]; [constructor|].
  cbn [map concat]. apply Forall_app. split; [|done].
  destruct (in_table c) eqn:Ec.
  - apply table_image_in_table in Ec. rewrite forallb_forall in Ec.
    apply Forall_forall. intros x Hx%list_elem_of_In.
    by apply ascii_not_in_table, Ec.
  - rewrite (table_image_not_in_table c Ec). by constructor.
Qed.

(** X8. No letter of the table survives transliteration, so that
    transliterating a second time changes nothing. *)
Theorem transliterate_settles (s : str) :
  ∃ out, transliterate (VStr s) = Ok out
         ∧ Forall (λ c, in_table c = false) out
         ∧ transliterate (VStr out) = Ok out.
Proof.
  exists (translate TRANS_TABLE s). rewrite !transliterate_str.
  split; [done|]. split; [apply translate_no_table_letter|].
  f_equal. apply translate_fixed, translate_no_table_letter.
Qed.

(** X9. A text without a letter of the table comes back as it is; ASCII
    text in particular. *)
Theorem transliterate_keeps_other_text :
  (∀ s, Forall (λ c, in_table c = false) s → transliterate (VStr s) = Ok s)
  ∧ (∀ s, forallb is_ascii s = true → transliterate (VStr s) = Ok s).
Proof.
  split; intros s Hs; rewrite transliterate_str; f_equal; apply translate_fixed.
  - done.
  - rewrite forallb_forall in Hs. apply Forall_forall.
    intros c Hc%list_elem_of_In. by apply ascii_not_in_table, Hs.
Qed.

(** X10. A text made of ASCII and of letters of the table becomes pure
    ASCII. *)
Theorem transliterate_to_ascii (s : str) :
  Forall (λ c, is_ascii c = true ∨ in_table c = true) s →
  ∃ out, transliterate (VStr s) = Ok out ∧ forallb is_ascii out = true.
Proof.
  intros Hs. exists (translate TRANS_TABLE s). rewrite transliterate_str.
  split; [done|]. rewrite translate_images. unfold Ref.transliterate.
  induction Hs as [|c s Hc _ IH]; [done|].
  cbn [map concat]. rewrite forallb_app, IH, andb_true_r.
  destruct Hc as [Hc|Hc].
  - rewrite (table_image_not_in_table c (ascii_not_in_table c Hc)).
    cbn [forallb]. by rewrite Hc.
  - by apply table_image_in_table.
Qed.

End MoreTranslitFacts.

(** ** More on the slug generator *)

Section MoreSlugifyFacts.
Context `{UnicodeData}.
Import Regex.

Lemma slugify_year (title : str) (year : Z) :
  year ≠ 0%Z →
  slugify title year = slugify title 0 ++ 45%N :: Py.str_of_int year.
Proof.
  intros Hy. unfold slugify. cbn [Z.eqb negb].
  by destruct (Z.eqb_spec year 0).
Qed.

Lemma joined_chars (inside : bool) (s : str) :
  joined inside s = true → Forall (λ c, Py.alnum c = true ∨ c = 45%N) s.
Proof.
  revert inside. induction s as [|c s IH]; intros inside; [constructor|].
  cbn [joined]. destruct (Py.alnum c) eqn:Ec.
  - intros Hj. constructor; [by left | by apply (IH true)].
  - intros [[Hc%N.eqb_eq _]%andb_true_iff Hj]%andb_true_iff.
    constructor; [by right | by apply (IH false)].
Qed.

Lemma joined_head (s : str) (c : N) :
  joined false s = true → head s = Some c → Py.alnum c = true.
Proof.
  destruct s as [|a s]; [done|]. cbn [joined head].
  destruct (Py.alnum a) eqn:Ea; [by intros _ [= <-]|].
  by rewrite andb_false_r.
Qed.

Lemma joined_last (inside : bool) (s : str) (c : N) :
  joined inside s = true → last s = Some c → Py.alnum c = true.
Proof.
  revert inside. induction s as [|a s IH]; intros inside; [done|].
  cbn [joined]. destruct s as [|b s].
  - cbn [joined last]. destruct (Py.alnum a) eqn:Ea; [by intros _ [= <-]|].
    by rewrite andb_false_r.
  - rewrite last_cons_cons. destruct (Py.alnum a).
    + apply IH.
    + intros [_ Hj]%andb_true_iff. by apply (IH false).
Qed.

Lemma str_of_int_chars (z : Z) :
  Forall (λ c, Py.alnum c = true ∨ c = 45%N) (Py.str_of_int z).
Proof.
  assert (Hd : ∀ d, Forall (λ c, Py.alnum c = true ∨ c = 45%N)
                      (Py.uint_chars d)).
  { intros d. eapply Forall_impl; [apply uint_chars_digits|].
    intros c Hc. left. by apply is_digit_alnum. }
  unfold Py.str_of_int. destruct (Z.to_int z); [apply Hd|].
  constructor; [by right | apply Hd].
Qed.

Lemma str_of_int_last (z : Z) (c : N) :
  z ≠ 0%Z → last (Py.str_of_int z) = Some c → Py.is_digit c = true.
Proof.
  assert (Hd : ∀ d x, last (Py.uint_chars d) = Some x → Py.is_digit x = true).
  { intros d x Hx%last_Some_elem_of.
    pose proof (uint_chars_digits d) as Hf. rewrite Forall_forall in Hf.
    by apply Hf. }
  intros Hz. unfold Py.str_of_int. destruct z as [|p|p]; [done| |];
    cbn [Z.to_int]; [apply Hd|].
  destruct (Py.uint_chars (Pos.to_uint p)) as [|a l] eqn:E.
  { apply uint_chars_nil in E.
    by apply DecimalPos.Unsigned.to_uint_nonnil in E. }
  rewrite last_cons_cons, <- E. apply Hd.
Qed.

(** X11. A slug base is safe in a URL for every title and every year: it
    is not empty, holds nothing but the letters a-z, digits and hyphens,
    and begins and ends with a letter or a digit. *)
Theorem slugify_url_safe (title : str) (year : Z) :
  slugify title year ≠ []
  ∧ Forall (λ c, Py.alnum c = true ∨ c = 45%N) (slugify title year)
  ∧ (∀ c, head (slugify title year) = Some c → Py.alnum c = true)
  ∧ (∀ c, last (slugify title year) = Some c → Py.alnum c = true).
Proof.
  pose proof (slugify_joined title 0 ltac:(done)) as Hj.
  destruct (decide (year = 0%Z)) as [->|Hy].
  - split_and!.
    + intros Hnil. by rewrite Hnil in Hj.
    + by apply (joined_chars false).
    + intros c. by apply joined_head.
    + intros c. by apply (joined_last false).
  - rewrite (slugify_year title year Hy).
    destruct (slugify title 0) as [|a core] eqn:Ec; [done|].
    split_and!.
    + done.
    + apply Forall_app. split; [by apply (joined_chars false)|].
      constructor; [by right | apply str_of_int_chars].
    + intros c [= <-]. by apply (joined_head (a :: core)).
    + intros c. rewrite last_app_cons, last_cons.
      destruct (last (Py.str_of_int year)) as [d|] eqn:El.
      * intros [= <-]. by apply is_digit_alnum, (str_of_int_last year).
      * apply last_None in El. destruct year as [|p|p]; [done| |done].
        by apply str_of_int_pos in El.
Qed.

(** X12. With the same title, different years give different slug
    bases. *)
Theorem slugify_tells_years_apart (title : str) (year1 year2 : Z) :
  slugify title year1 = slugify title year2 → year1 = year2.
Proof.
  destruct (decide (year1 = 0%Z)) as [->|H1],
           (decide (year2 = 0%Z)) as [->|H2]; [done| | |].
  - rewrite (slugify_year title year2 H2). intros Hs%(f_equal length).
    rewrite length_app in Hs. cbn [length] in Hs. lia.
  - rewrite (slugify_year title year1 H1). intros Hs%(f_equal length).
    rewrite length_app in Hs. cbn [length] in Hs. lia.
  - rewrite (slugify_year title year1 H1), (slugify_year title year2 H2).
    intros [= Hs]%app_inv_head. by apply str_of_int_inj.
Qed.

Lemma lower_char_idem (c : N) :
  Py.lower_char (Py.lower_char c) = Py.lower_char c.
Proof.
  unfold Py.lower_char.
  destruct ((65 <=? c) && (c <=? 90))%N eqn:E; [|by rewrite E].
  apply andb_true_iff in E as [E1%N.leb_le E2%N.leb_le].
  destruct ((65 <=? c + 32) && (c + 32 <=? 90))%N eqn:E'; [|done].
  apply andb_true_iff in E' as [_ E'%N.leb_le]. lia.
Qed.

Lemma lower_char_ascii (c : N) :
  is_ascii c = true → is_ascii (Py.lower_char c) = true.
Proof.
  unfold Py.lower_char, is_ascii.
  destruct ((65 <=? c) && (c <=? 90))%N eqn:E; [|done].
  apply andb_true_iff in E as [E1%N.leb_le E2%N.leb_le].
  intros _. apply N.ltb_lt. lia.
Qed.

Lemma lower_ascii (s : str) :
  forallb is_ascii s = true → forallb is_ascii (Py.lower s) = true.
Proof.
  unfold Py.lower. induction s as [|c s IH]; [done|]. cbn [forallb map].
  intros [Hc Hs]%andb_true_iff. by rewrite (lower_char_ascii c Hc), IH.
Qed.

(** X13. On an ASCII title the slug base does not depend on the case of
    the letters. *)
Theorem slugify_ignores_case (title : str) (year : Z) :
  forallb is_ascii title = true →
  slugify (Py.lower title) year = slugify title year.
Proof.
  intros Ha. pose proof (lower_ascii title Ha) as Hl.
  rewrite (slugify_ascii _ year Hl), (slugify_ascii _ year Ha).
  unfold slugify, Py.decode_ascii, Py.encode_ascii_ignore. cbn [nfkd ascii_only].
  replace (match Py.lower title with [] => [] | _ :: _ => Py.lower title end)
    with (Py.lower title) by (by destruct (Py.lower title)).
  replace (match title with [] => [] | _ :: _ => title end) with title
    by (by destruct title).
  rewrite (List.forallb_filter_id _ _ Hl), (List.forallb_filter_id _ _ Ha).
  replace (Py.lower (Py.lower title)) with (Py.lower title); [done|].
  unfold Py.lower. rewrite map_map. apply map_ext. intros c.
  by rewrite lower_char_idem.
Qed.

End MoreSlugifyFacts.

(** ** More on integer coercion *)

Section MoreIntFacts.
Context `{UnicodeData}.

Lemma scan_stops (rest : str) (prev : N) (len : nat) (acc : Z) :
  prev ≠ 95%N → stops rest →
  Py.scan_digits rest prev len acc = Some (acc, len, rest).
Proof.
  intros Hprev%N.eqb_neq Hrest. destruct rest as [|w r]; cbn [Py.scan_digits].
  - by rewrite Hprev.
  - destruct Hrest as [-> ->]. by rewrite Hprev.
Qed.

Lemma scan_uint_acc_then (d : Decimal.uint) (rest : str)
    (prev : N) (len : nat) (acc : positive) :
  prev ≠ 95%N → stops rest →
  Py.scan_digits (Py.uint_chars d ++ rest) prev len (Z.pos acc)
  = Some (Z.pos (Pos.of_uint_acc d acc),
          (len + length (Py.uint_chars d))%nat, rest).
Proof.
  intros Hprev Hrest. revert prev len acc Hprev.
  induction d as [|d IH|d IH|d IH|d IH|d IH|d IH|d IH|d IH|d IH|d IH];
    intros prev len acc Hprev;
    cbn [Py.uint_chars app Py.scan_digits length Pos.of_uint_acc].
  { rewrite Nat.add_0_r. by apply scan_stops. }
  all: change (Py.is_digit _) with true; cbn iota.
  all: match goal with
       | |- Py.scan_digits _ _ _ ?a = Some (Z.pos (Pos.of_uint_acc _ ?q), _, _) =>
           replace a with (Z.pos q) by lia
       end.
  all: rewrite IH by done; by rewrite Nat.add_succ_r.
Qed.

Lemma scan_uint_then (d : Decimal.uint) (rest : str) (prev : N) (len : nat) :
  prev ≠ 95%N → stops rest →
  Py.scan_digits (Py.uint_chars d ++ rest) prev len 0
  = Some (Z.of_N (Pos.of_uint d), (len + length (Py.uint_chars d))%nat, rest).
Proof.
  intros Hprev Hrest. revert prev len Hprev.
  induction d as [|d IH|d IH|d IH|d IH|d IH|d IH|d IH|d IH|d IH|d IH];
    intros prev len Hprev;
    cbn [Py.uint_chars app Py.scan_digits length Pos.of_uint].
  { rewrite Nat.add_0_r. by apply scan_stops. }
  { change (Py.is_digit _) with true. cbn iota.
    change (10 * 0 + Z.of_N (48 - 48))%Z with 0%Z.
    rewrite IH by done. by rewrite Nat.add_succ_r. }
  all: change (Py.is_digit _) with true; cbn iota.
  all: match goal with
       | |- Py.scan_digits _ _ _ ?a = Some (Z.of_N (N.pos (Pos.of_uint_acc _ ?q)), _, _) =>
           change a with (Z.pos q)
       end.
  all: rewrite scan_uint_acc_then by done; by rewrite Nat.add_succ_r.
Qed.

Lemma blank_stops (ws : str) :
  Forall (λ c, Py.c_isspace c = true) ws → stops ws.
Proof.
  destruct 1 as [|w ws Hw _]; [done|].
  unfold Py.c_isspace in Hw. unfold Py.is_digit.
  apply orb_true_iff in Hw as [[H1%N.leb_le H2%N.leb_le]%andb_true_iff|H3%N.eqb_eq].
  - split; [apply andb_false_iff; left; apply N.leb_gt; lia|].
    apply N.eqb_neq. lia.
  - subst w. by split.
Qed.

Lemma lstrip_app_all (p : N → bool) (ws s : str) :
  Forall (λ c, p c = true) ws → Py.lstrip p (ws ++ s) = Py.lstrip p s.
Proof. induction 1 as [|w ws Hw _ IH]; [done|]. simpl. by rewrite Hw. Qed.

Lemma long_from_digits_blanks (d : Decimal.uint) (ws : str) :
  d ≠ Decimal.Nil →
  (N.of_nat (length (Py.uint_chars d)) ≤ Py.int_max_str_digits)%N →
  Forall (λ c, Py.c_isspace c = true) ws →
  Py.long_from_string (Py.uint_chars d ++ ws) = Ok (Z.of_N (Pos.of_uint d))
  ∧ Py.long_from_string (45%N :: Py.uint_chars d ++ ws)
    = Ok (- Z.of_N (Pos.of_uint d))%Z.
Proof.
  intros Hd Hlim Hws. pose proof (uint_chars_digits d) as Hdig.
  pose proof (scan_uint_then d ws 0 0 ltac:(done) (blank_stops ws Hws)) as Hscan.
  pose proof (counted_digits d ws) as Hcount. apply N.ltb_ge in Hlim.
  assert (Hall : forallb Py.c_isspace ws = true).
  { apply forallb_forall. rewrite Forall_forall in Hws.
    intros x Hx%list_elem_of_In. by apply Hws. }
  destruct (Py.uint_chars d) as [|c s] eqn:Ed.
  { by apply uint_chars_nil in Ed. }
  apply Forall_cons in Hdig as [Hc _].
  destruct (digit_not_special c Hc) as (Hsp & H43 & H45 & _ & H95).
  split; unfold Py.long_from_string; cbn [Py.lstrip app].
  - rewrite Hsp, H43, H45. cbn [Py.startswith]. rewrite H95. cbn [andb].
    cbn [app] in Hscan, Hcount. rewrite Hscan. cbv zeta.
    rewrite Hcount, Hlim. cbn [Nat.add length].
    rewrite (lstrip_all _ _ Hall). f_equal. lia.
  - change (Py.c_isspace 45) with false. cbn iota.
    change (N.eqb 45 43) with false. change (N.eqb 45 45) with true. cbn iota.
    cbn [Py.startswith]. rewrite H95. cbn [andb].
    cbn [app] in Hscan, Hcount. rewrite Hscan. cbv zeta.
    rewrite Hcount, Hlim. cbn [Nat.add length].
    by rewrite (lstrip_all _ _ Hall).
Qed.

Lemma long_from_str_of_int_blanks (z : Z) (ws : str) :
  (Py.int_digits z ≤ Py.int_max_str_digits)%N →
  Forall (λ c, Py.c_isspace c = true) ws →
  Py.long_from_string (Py.str_of_int z ++ ws) = Ok z.
Proof.
  rewrite int_digits_eq. intros Hlim Hws. unfold Py.str_of_int.
  destruct z as [|p|p]; cbn [Z.to_int] in *.
  - by destruct (long_from_digits_blanks Decimal.zero ws ltac:(done) Hlim Hws)
      as [-> _].
  - destruct (long_from_digits_blanks (Pos.to_uint p) ws) as [-> _];
      [apply DecimalPos.Unsigned.to_uint_nonnil | done | done |].
    by rewrite DecimalPos.Unsigned.of_to.
  - destruct (long_from_digits_blanks (Pos.to_uint p) ws) as [_ Hn];
      [apply DecimalPos.Unsigned.to_uint_nonnil | done | done |].
    cbn [app]. rewrite Hn. by rewrite DecimalPos.Unsigned.of_to.
Qed.

Lemma c_isspace_ascii (c : N) : Py.c_isspace c = true → is_ascii c = true.
Proof.
  unfold Py.c_isspace, is_ascii.
  intros [[_ H2%N.leb_le]%andb_true_iff|H3%N.eqb_eq]%orb_true_iff;
    apply N.ltb_lt; lia.
Qed.

Lemma str_of_int_head (z : Z) :
  ∃ c t, Py.str_of_int z = c :: t ∧ Py.c_isspace c = false.
Proof.
  unfold Py.str_of_int. destruct z as [|p|p]; cbn [Z.to_int].
  - by eexists _, _.
  - pose proof (uint_chars_digits (Pos.to_uint p)) as Hd.
    destruct (Py.uint_chars (Pos.to_uint p)) as [|c t] eqn:E.
    { apply uint_chars_nil in E.
      by apply DecimalPos.Unsigned.to_uint_nonnil in E. }
    apply Forall_cons in Hd as [Hc _]. exists c, t. split; [done|].
    by destruct (digit_not_special c Hc).
  - by eexists _, _.
Qed.

(** X14. Blanks around the number do not matter: an integer of at most
    4300 digits printed in decimal, with any blanks, tabs or line ends
    before and after it, is coerced to that integer. *)
Theorem parse_int_skips_blanks (before after : str) (z : Z) :
  (Py.int_digits z ≤ Py.int_max_str_digits)%N →
  Forall (λ c, Py.c_isspace c = true) before →
  Forall (λ c, Py.c_isspace c = true) after →
  parse_int (VStr (before ++ Py.str_of_int z ++ after)) = Ok z.
Proof.
  intros Hlim Hb Ha. unfold parse_int, Py.int_of_str.
  cbn [Py.str_of mbind result_bind].
  assert (Hascii : forallb is_ascii (before ++ Py.str_of_int z ++ after) = true).
  { rewrite !forallb_app, str_of_int_ascii.
    assert (Hf : ∀ ws, Forall (λ c, Py.c_isspace c = true) ws →
                       forallb is_ascii ws = true).
    { intros ws Hws. apply forallb_forall. rewrite Forall_forall in Hws.
      intros x Hx%list_elem_of_In. by apply c_isspace_ascii, Hws. }
    by rewrite (Hf before Hb), (Hf after Ha). }
  rewrite Hascii.
  assert (Hl : Py.long_from_string (before ++ Py.str_of_int z ++ after)
               = Py.long_from_string (Py.str_of_int z ++ after)).
  { unfold Py.long_from_string. by rewrite (lstrip_app_all _ before). }
  by rewrite Hl, long_from_str_of_int_blanks.
Qed.

Lemma lstrip_split (p : N → bool) (s : str) :
  ∃ ws, s = ws ++ Py.lstrip p s ∧ Forall (λ c, p c = true) ws.
Proof.
  induction s as [|c s (ws & Hs & Hws)]; [by exists []|].
  simpl. destruct (p c) eqn:Ec; [|by exists []].
  exists (c :: ws). split; [cbn [app]; congruence | by constructor].
Qed.

Lemma lstrip_nil_all (p : N → bool) (s : str) :
  Py.lstrip p s = [] → Forall (λ c, p c = true) s.
Proof.
  intros Hnil. destruct (lstrip_split p s) as (ws & Hs & Hws).
  rewrite Hnil, app_nil_r in Hs. by subst.
Qed.

Lemma scan_digits_split (p : str) (prev : N) (len : nat) (acc : Z)
    (n : Z) (len' : nat) (rest : str) :
  Py.scan_digits p prev len acc = Some (n, len', rest) →
  ∃ ds, p = ds ++ rest ∧ Forall (λ c, int_char c = true) ds.
Proof.
  revert prev len acc. induction p as [|c p IH]; intros prev len acc;
    cbn [Py.scan_digits].
  - destruct (prev =? 95)%N; [done|]. intros [= _ _ <-]. by exists [].
  - destruct (Py.is_digit c) eqn:Ed.
    + intros (ds & -> & Hds)%IH. exists (c :: ds). split; [done|].
      constructor; [|done]. unfold int_char. by rewrite Ed.
    + destruct (c =? 95)%N eqn:E95.
      * destruct (prev =? 95)%N; [done|].
        intros (ds & -> & Hds)%IH. exists (c :: ds). split; [done|].
        constructor; [|done]. unfold int_char. rewrite E95.
        by rewrite !orb_true_r.
      * destruct (prev =? 95)%N; [done|]. intros [= _ _ <-]. by exists [].
Qed.

Lemma int_char_blank (c : N) : Py.c_isspace c = true → int_char c = true.
Proof. unfold int_char. intros ->. by rewrite orb_true_r. Qed.

(** A text that reads as an integer holds nothing but digits, blanks,
    signs and underscores. *)
Lemma long_from_string_chars (s : str) (z : Z) :
  Py.long_from_string s = Ok z → Forall (λ c, int_char c = true) s.
Proof.
  unfold Py.long_from_string.
  destruct (lstrip_split Py.c_isspace s) as (ws & Hs & Hws).
  assert (Hws' : Forall (λ c, int_char c = true) ws).
  { eapply Forall_impl; [exact Hws|]. apply int_char_blank. }
  assert (Hscan : ∀ sign p,
    (if Py.startswith p [95%N] then Raise ValueError
     else match Py.scan_digits p 0 0 0 with
          | Some (n, len, rest) =>
              let digits :=
                N.of_nat (length (List.filter Py.is_digit (take len p))) in
              if (Py.int_max_str_digits <? digits)%N then Raise ValueError
              else
                match len, Py.lstrip Py.c_isspace rest with
                | S _, [] => Ok (sign * n)%Z
                | _, _ => Raise ValueError
                end
          | None => Raise ValueError
          end) = Ok z →
    Forall (λ c, int_char c = true) p).
  { intros sign p. destruct (Py.startswith p [95%N]); [done|].
    destruct (Py.scan_digits p 0 0 0) as [[[n len] rest]|] eqn:Ed; [|done].
    cbv zeta. destruct (_ <? _)%N; [done|].
    destruct len; [done|].
    destruct (Py.lstrip Py.c_isspace rest) eqn:Er; [|done]. intros _.
    apply scan_digits_split in Ed as (ds & -> & Hds).
    apply Forall_app. split; [done|].
    eapply Forall_impl; [by apply lstrip_nil_all|]. apply int_char_blank. }
  rewrite Hs at 2. destruct (Py.lstrip Py.c_isspace s) as [|c p]; clear Hs.
  - intros _. by rewrite app_nil_r.
  - destruct (c =? 43)%N eqn:E43; [|destruct (c =? 45)%N eqn:E45].
    + intros Hp%Hscan. apply Forall_app. split; [done|].
      constructor; [|done]. unfold int_char. rewrite E43.
      by rewrite !orb_true_r.
    + intros Hp%Hscan. apply Forall_app. split; [done|].
      constructor; [|done]. unfold int_char. rewrite E45.
      by rewrite !orb_true_r.
    + intros Hp%Hscan. by apply Forall_app.
Qed.

Lemma to_ascii_decimal_unreadable (s : str) (c : N) :
  c ∈ s → readable c = false →
  ∃ x, x ∈ Py.to_ascii_decimal s ∧ int_char x = false.
Proof.
  intros Hc Hr. induction s as [|ch s IH]; [by apply elem_of_nil in Hc|].
  cbn [Py.to_ascii_decimal].
  assert (Hrest : ∀ y, ch ≠ c → ∃ x, x ∈ y :: Py.to_ascii_decimal s
                                      ∧ int_char x = false).
  { intros y Hne. apply elem_of_cons in Hc as [->|Hc]; [done|].
    destruct (IH Hc) as (x & Hx & Hi). exists x. split; [by right | done]. }
  destruct (ch <? 127)%N eqn:E127.
  - destruct (decide (ch = c)) as [->|Hne]; [|by apply Hrest].
    exists c. split; [by left|]. unfold readable in Hr.
    replace (is_ascii c) with true in Hr.
    { by apply orb_false_iff in Hr as [? _]. }
    symmetry. apply N.ltb_lt. apply N.ltb_lt in E127. lia.
  - destruct (Py.isspace ch) eqn:Esp.
    + apply Hrest. intros ->. unfold readable in Hr. rewrite Esp in Hr.
      rewrite orb_true_r in Hr. by destruct (is_ascii c).
    + destruct (is_ascii ch) eqn:Ea.
      * exists 63%N. split; [by left | done].
      * destruct (decimal ch) as [d|] eqn:Ed.
        -- apply Hrest. intros ->. unfold readable in Hr.
           by rewrite Ea, Ed, orb_true_r in Hr.
        -- exists 63%N. split; [by left | done].
Qed.

(** X15. One code point that [int] cannot read spoils the whole value: a
    string that holds an ASCII code point other than a digit, white space,
    a sign or an underscore, or a code point beyond ASCII that is neither a
    Unicode space nor a Unicode decimal digit, is coerced to 0. *)
Theorem parse_int_stray_code_point (s : str) (c : N) :
  c ∈ s → readable c = false → parse_int (VStr s) = Ok 0%Z.
Proof.
  intros Hc Hr.
  destruct (t ← Py.str_of (VStr s); Py.int_of_str t) as [z|e] eqn:E;
    [|by apply (parse_int_unparseable _ e)].
  exfalso. unfold Py.int_of_str in E. cbn [Py.str_of mbind result_bind] in E.
  apply long_from_string_chars in E. rewrite Forall_forall in E.
  destruct (forallb is_ascii s) eqn:Ea.
  - specialize (E c Hc). unfold readable in Hr.
    rewrite forallb_forall in Ea.
    rewrite (Ea c (proj1 (list_elem_of_In _ _) Hc)) in Hr.
    apply orb_false_iff in Hr as [? _]. congruence.
  - destruct (to_ascii_decimal_unreadable s c Hc Hr) as (x & Hx & Hi).
    specialize (E x Hx). congruence.
Qed.

(** *** The digits of a coerced integer

    What [int] returns has no more digits than it has read, so the years
    that [parse_int] returns are within the limit, and the f-strings of
    [slugify] can write them. *)

Lemma scan_digits_value (p : str) (prev : N) (len : nat) (acc : Z)
    (n : Z) (len' : nat) (rest : str) :
  Py.scan_digits p prev len acc = Some (n, len', rest) →
  ∃ ds, p = ds ++ rest ∧ len' = (len + length ds)%nat
        ∧ n = fold_left (λ a c, (10 * a + Z.of_N (c - 48))%Z)
                (List.filter Py.is_digit ds) acc.
Proof.
  revert prev len acc. induction p as [|c p IH]; intros prev len acc;
    cbn [Py.scan_digits].
  - destruct (prev =? 95)%N; [done|]. intros [= <- <- <-].
    exists []. by rewrite Nat.add_0_r.
  - destruct (Py.is_digit c) eqn:Ed.
    + intros (ds & -> & -> & ->)%IH. exists (c :: ds).
      cbn [List.filter length app]. rewrite Ed. cbn [fold_left].
      split; [done|]. split; [lia | done].
    + destruct (c =? 95)%N.
      * destruct (prev =? 95)%N; [done|].
        intros (ds & -> & -> & ->)%IH. exists (c :: ds).
        cbn [List.filter length app]. rewrite Ed.
        split; [done|]. split; [lia | done].
      * destruct (prev =? 95)%N; [done|]. intros [= <- <- <-].
        exists []. by rewrite Nat.add_0_r.
Qed.

Lemma digits_uint (ds : str) :
  Forall (λ c, Py.is_digit c = true) ds → ∃ d, Py.uint_chars d = ds.
Proof.
  induction 1 as [|c ds Hc _ [d <-]]; [by exists Decimal.Nil|].
  unfold Py.is_digit in Hc.
  apply andb_true_iff in Hc as [H1%N.leb_le H2%N.leb_le].
  assert (Hcases : (c = 48 ∨ c = 49 ∨ c = 50 ∨ c = 51 ∨ c = 52 ∨ c = 53
                    ∨ c = 54 ∨ c = 55 ∨ c = 56 ∨ c = 57)%N) by lia.
  destruct_or! Hcases; subst c;
    [ by exists (Decimal.D0 d) | by exists (Decimal.D1 d)
    | by exists (Decimal.D2 d) | by exists (Decimal.D3 d)
    | by exists (Decimal.D4 d) | by exists (Decimal.D5 d)
    | by exists (Decimal.D6 d) | by exists (Decimal.D7 d)
    | by exists (Decimal.D8 d) | by exists (Decimal.D9 d) ].
Qed.

Lemma uint_chars_value (d : Decimal.uint) :
  fold_left (λ a c, (10 * a + Z.of_N (c - 48))%Z) (Py.uint_chars d) 0%Z
  = Z.of_N (Pos.of_uint d).
Proof.
  pose proof (scan_uint d 0 0 ltac:(done)) as Hs.
  apply scan_digits_value in Hs as (ds & Hds & _ & Hn).
  rewrite app_nil_r in Hds. subst ds.
  by rewrite filter_digits in Hn by apply uint_chars_digits.
Qed.

Lemma str_of_int_of_N (n : N) :
  Py.str_of_int (Z.of_N n) = Py.uint_chars (N.to_uint n).
Proof. by destruct n. Qed.

Lemma nzhead_length (d : Decimal.uint) :
  length (Py.uint_chars (Decimal.nzhead d)) ≤ length (Py.uint_chars d).
Proof. induction d; cbn [Decimal.nzhead Py.uint_chars length]; lia. Qed.

Lemma unorm_length (d : Decimal.uint) :
  length (Py.uint_chars (Decimal.unorm d))
  ≤ Nat.max 1 (length (Py.uint_chars d)).
Proof.
  unfold Decimal.unorm. pose proof (nzhead_length d) as Hd.
  destruct (Decimal.nzhead d); cbn [Py.uint_chars length] in *; lia.
Qed.

Lemma long_from_string_digits (s : str) (z : Z) :
  Py.long_from_string s = Ok z → (Py.int_digits z ≤ Py.int_max_str_digits)%N.
Proof.
  unfold Py.long_from_string.
  assert (Hscan : ∀ sign p, (sign = 1 ∨ sign = -1)%Z →
    (if Py.startswith p [95%N] then Raise ValueError
     else match Py.scan_digits p 0 0 0 with
          | Some (n, len, rest) =>
              let digits :=
                N.of_nat (length (List.filter Py.is_digit (take len p))) in
              if (Py.int_max_str_digits <? digits)%N then Raise ValueError
              else
                match len, Py.lstrip Py.c_isspace rest with
                | S _, [] => Ok (sign * n)%Z
                | _, _ => Raise ValueError
                end
          | None => Raise ValueError
          end) = Ok z →
    (Py.int_digits z ≤ Py.int_max_str_digits)%N).
  { intros sign p Hsign. destruct (Py.startswith p [95%N]); [done|].
    destruct (Py.scan_digits p 0 0 0) as [[[n len] rest]|] eqn:Ed; [|done].
    apply scan_digits_value in Ed as (ds & -> & -> & ->). cbn [Nat.add].
    cbv zeta. rewrite take_app_length.
    destruct (_ <? _)%N eqn:El; [done|]. apply N.ltb_ge in El.
    destruct (length ds); [done|].
    destruct (Py.lstrip Py.c_isspace rest); [|done]. intros [= <-].
    destruct (digits_uint (List.filter Py.is_digit ds)) as [d Hd].
    { apply Forall_forall. intros c Hc%list_elem_of_In%filter_In. tauto. }
    rewrite <- Hd in *. rewrite uint_chars_value. unfold Py.int_digits.
    replace (Z.abs (sign * Z.of_N (Pos.of_uint d)))
      with (Z.of_N (Pos.of_uint d)) by lia.
    rewrite str_of_int_of_N, DecimalPos.Unsigned.to_of.
    pose proof (unorm_length d). unfold Py.int_max_str_digits in *. lia. }
  destruct (Py.lstrip Py.c_isspace s) as [|c p].
  - apply Hscan. by left.
  - destruct (c =? 43)%N; [apply Hscan; by left|].
    destruct (c =? 45)%N; apply Hscan; [by right | by left].
Qed.

(** The integer that [parse_int] returns is within the limit. *)
Lemma parse_int_digits (v : value) (n : Z) :
  parse_int v = Ok n → (Py.int_digits n ≤ Py.int_max_str_digits)%N.
Proof.
  unfold parse_int. destruct (Py.str_of v) as [s|e] eqn:Es;
    cbn [mbind result_bind].
  - destruct (Py.int_of_str s) as [m|e] eqn:E.
    + intros [= <-]. by apply long_from_string_digits in E.
    + apply int_of_str_raises in E as ->. intros [= <-]. by vm_compute.
  - apply str_of_raises in Es as ->. intros [= <-]. by vm_compute.
Qed.

(** So are the two years of every record of a run. *)
Lemma years_within_limit
    (source : list (gmap str value)) (out : list movie) (m : movie) :
  convert source = Ok out → m ∈ out →
  (Py.int_digits (releaseYear m) ≤ Py.int_max_str_digits)%N
  ∧ (Py.int_digits (registryYear m) ≤ Py.int_max_str_digits)%N.
Proof.
  intros Hc Hm.
  destruct (convert_built _ _ Hc m Hm) as (e & _ & _ & _ & Hy & Hg & _).
  split; by eapply parse_int_digits.
Qed.

End MoreIntFacts.

(** ** More on the director parser *)

Section MoreDirectorFacts.
Import Translit.

Lemma startswith_nil (s : str) : Py.startswith s [] = true.
Proof. by destruct s. Qed.

Lemma startswith_before (old a : str) (c : N) (b : str) :
  c ∉ old → Py.startswith (a ++ c :: b) old = Py.startswith a old.
Proof.
  revert a. induction old as [|o old IH]; intros a Hc.
  { by rewrite !startswith_nil. }
  apply not_elem_of_cons in Hc as [Hne Hc].
  destruct a as [|x a]; cbn [app Py.startswith].
  - apply andb_false_iff. left. apply N.eqb_neq. congruence.
  - by rewrite IH.
Qed.

Lemma startswith_length (s old : str) :
  Py.startswith s old = true → length old ≤ length s.
Proof.
  revert s. induction old as [|o old IH]; intros s; [cbn; lia|].
  destruct s as [|x s]; [done|]. cbn [Py.startswith length].
  intros [_ Hs%IH]%andb_true_iff. lia.
Qed.

(** A code point that does not occur in [old] cuts the text in two parts
    that are replaced separately. *)
Lemma replace_from_cut (old new : str) (k : nat) (a : str) (c : N) (b : str) :
  old ≠ [] → c ∉ old → k ≤ length a →
  Py.replace_from old new k (a ++ c :: b)
  = Py.replace_from old new k a ++ c :: Py.replace_from old new 0 b.
Proof.
  intros Hold Hc. revert k. induction a as [|x a IH]; intros k Hk.
  - cbn [length] in Hk. assert (k = 0%nat) as -> by lia.
    cbn [app Py.replace_from].
    destruct old as [|o old]; [done|]. cbn [Py.startswith].
    apply not_elem_of_cons in Hc as [Hne _].
    replace (o =? c)%N with false; [done|].
    symmetry. apply N.eqb_neq. congruence.
  - destruct k as [|k]; cbn [app Py.replace_from].
    + change (x :: a ++ c :: b) with ((x :: a) ++ c :: b).
      rewrite startswith_before by done.
      destruct (Py.startswith (x :: a) old) eqn:Es.
      * apply startswith_length in Es. cbn [length] in Es.
        rewrite IH by lia. by rewrite <- app_assoc.
      * rewrite IH by lia. done.
    + cbn [length] in Hk. apply IH. lia.
Qed.

Lemma replace_cut (old new a : str) (c : N) (b : str) :
  old ≠ [] → c ∉ old →
  Py.replace old new (a ++ c :: b)
  = Py.replace old new a ++ c :: Py.replace old new b.
Proof. intros Hold Hc. unfold Py.replace. apply replace_from_cut; [done..|lia]. Qed.

Lemma replace_one_cons (c : N) (new : str) (x : N) (s : str) :
  Py.replace [c] new (x :: s)
  = (if (c =? x)%N then new else [x]) ++ Py.replace [c] new s.
Proof.
  unfold Py.replace. cbn [Py.replace_from Py.startswith length Nat.sub].
  rewrite startswith_nil, andb_true_r. by destruct (c =? x)%N.
Qed.

Lemma replace_one_app (c : N) (new a b : str) :
  Py.replace [c] new (a ++ b) = Py.replace [c] new a ++ Py.replace [c] new b.
Proof.
  induction a as [|x a IH]; [done|].
  cbn [app]. by rewrite !replace_one_cons, IH, app_assoc.
Qed.

Lemma replace_one_self (c : N) (new a b : str) :
  Py.replace [c] new (a ++ c :: b)
  = Py.replace [c] new a ++ new ++ Py.replace [c] new b.
Proof.
  by rewrite replace_one_app, replace_one_cons, N.eqb_refl.
Qed.

Lemma split_commas_cut (a b : str) :
  Ref.split_commas (a ++ 44%N :: b) = Ref.split_commas a ++ Ref.split_commas b.
Proof.
  induction a as [|x a IH]; [done|].
  unfold Ref.split_commas in *. cbn [app foldr]. rewrite IH.
  destruct (split_commas_cons a) as (p & more & Hp).
  unfold Ref.split_commas in Hp. rewrite Hp.
  by case_bool_decide.
Qed.

Lemma parse_directors_str (raw : str) :
  parse_directors (VStr raw)
  = Ok (List.filter (λ part, truthy (VStr part))
          (map (λ part, Py.strip_chars [32; 9; 13; 10; 46]%N part)
             (Py.split 44 (normalized (translate TRANS_TABLE raw))))).
Proof.
  unfold parse_directors.
  replace (py_or (VStr raw) (VStr [])) with (VStr raw) by (by destruct raw).
  by rewrite transliterate_str.
Qed.

Lemma translate_delimiter (c : N) (a b : str) :
  delimiter c = true →
  translate TRANS_TABLE (a ++ c :: b)
  = translate TRANS_TABLE a ++ c :: translate TRANS_TABLE b.
Proof.
  intros Hc. change (c :: b) with ([c] ++ b). rewrite !translate_app.
  rewrite (translate_fixed [c]); [done|]. constructor; [|done].
  unfold delimiter in Hc.
  repeat (apply orb_true_iff in Hc as [Hc|Hc]);
    apply N.eqb_eq in Hc as ->; by vm_compute.
Qed.

Lemma normalized_cut (c : N) (a b : str) :
  delimiter c = true →
  normalized (a ++ c :: b) = normalized a ++ 44%N :: normalized b.
Proof.
  assert (Hnot : ∀ (x : N) (tok : str), bool_decide (x ∉ tok) = true → x ∉ tok)
    by (intros x tok; apply bool_decide_eq_true_1).
  intros Hc. unfold delimiter in Hc. unfold normalized. cbn [fold_left].
  change (u ",") with [44%N]. change (u ";") with [59%N].
  change (u "/") with [47%N]. change (u "|") with [124%N].
  repeat (apply orb_true_iff in Hc as [Hc|Hc]); apply N.eqb_eq in Hc as ->.
  - rewrite (replace_cut (u " & ")) by (done || by apply Hnot).
    rewrite (replace_cut (u " and ")) by (done || by apply Hnot).
    by rewrite !replace_cut by (done || by apply Hnot).
  - rewrite (replace_cut (u " & ")) by (done || by apply Hnot).
    rewrite (replace_cut (u " and ")) by (done || by apply Hnot).
    rewrite replace_one_self. cbn [app].
    by rewrite !replace_cut by (done || by apply Hnot).
  - rewrite (replace_cut (u " & ")) by (done || by apply Hnot).
    rewrite (replace_cut (u " and ")) by (done || by apply Hnot).
    rewrite (replace_cut [59%N]) by (done || by apply Hnot).
    rewrite replace_one_self. cbn [app].
    by rewrite !replace_cut by (done || by apply Hnot).
  - rewrite (replace_cut (u " & ")) by (done || by apply Hnot).
    rewrite (replace_cut (u " and ")) by (done || by apply Hnot).
    rewrite (replace_cut [59%N]) by (done || by apply Hnot).
    rewrite (replace_cut [47%N]) by (done || by apply Hnot).
    by rewrite replace_one_self.
Qed.

(** X16. A comma, a semicolon, a slash or a vertical bar separates two
    independent parts: the directors of [a], the delimiter and [b] are the
    directors of [a] followed by the directors of [b]. *)
Theorem parse_directors_cut (a b : str) (c : N) :
  delimiter c = true →
  ∃ da db, parse_directors (VStr a) = Ok da
           ∧ parse_directors (VStr b) = Ok db
           ∧ parse_directors (VStr (a ++ c :: b)) = Ok (da ++ db).
Proof.
  intros Hc. eexists _, _.
  split; [apply parse_directors_str|]. split; [apply parse_directors_str|].
  rewrite parse_directors_str. f_equal.
  rewrite (translate_delimiter c a b Hc), (normalized_cut c _ _ Hc).
  rewrite !split_commas_split, split_commas_cut.
  by rewrite map_app, List.filter_app.
Qed.

Lemma replace_from_elem (old new : str) (k : nat) (s : str) (x : N) :
  x ∈ Py.replace_from old new k s → x ∈ s ∨ x ∈ new.
Proof.
  revert k. induction s as [|h s IH]; intros k; [by left|].
  destruct k as [|k]; cbn [Py.replace_from].
  - destruct (Py.startswith (h :: s) old).
    + intros [Hx|Hx]%elem_of_app; [by right|].
      destruct (IH _ Hx) as [?|?]; [left; by right | by right].
    + intros [->|Hx]%elem_of_cons; [left; by left|].
      destruct (IH _ Hx) as [?|?]; [left; by right | by right].
  - intros Hx. destruct (IH _ Hx) as [?|?]; [left; by right | by right].
Qed.

Lemma replace_one_gone (c : N) (new s : str) :
  c ∉ new → c ∉ Py.replace [c] new s.
Proof.
  intros Hc. induction s as [|x s IH]; [by apply not_elem_of_nil|].
  rewrite replace_one_cons. intros [Hx|Hx]%elem_of_app; [|done].
  destruct (N.eqb_spec c x) as [->|Hne]; [done|].
  apply list_elem_of_singleton in Hx. congruence.
Qed.

(** What is left after the replacements comes from the text, and is none of
    the three delimiters that are replaced. *)
Lemma normalized_elem (t : str) (x : N) :
  x ∈ normalized t → x ≠ 44%N →
  x ∈ t ∧ x ≠ 59%N ∧ x ≠ 47%N ∧ x ≠ 124%N.
Proof.
  unfold normalized. cbn [fold_left].
  change (u ",") with [44%N]. change (u ";") with [59%N].
  change (u "/") with [47%N]. change (u "|") with [124%N].
  intros Hx Hne.
  assert (Hnew : x ∉ [44%N]) by (by intros ->%list_elem_of_singleton).
  assert (Hback : ∀ old s, x ∈ Py.replace old [44%N] s → x ∈ s).
  { intros old s [?|?]%replace_from_elem; done. }
  assert (Hgone : ∀ c s, x ∈ Py.replace [c] [44%N] s → c ≠ 44%N → x ≠ c).
  { intros c s Hin Hc ->. revert Hin. apply replace_one_gone.
    by intros ->%list_elem_of_singleton. }
  pose proof (Hgone _ _ Hx ltac:(done)) as H124. apply Hback in Hx.
  pose proof (Hgone _ _ Hx ltac:(done)) as H47. apply Hback in Hx.
  pose proof (Hgone _ _ Hx ltac:(done)) as H59. apply Hback in Hx.
  by do 2 apply Hback in Hx.
Qed.

Lemma split_commas_elem (s piece : str) (x : N) :
  piece ∈ Ref.split_commas s → x ∈ piece → x ∈ s ∧ x ≠ 44%N.
Proof.
  revert piece. induction s as [|c s IH]; intros piece.
  { intros ->%list_elem_of_singleton Hx. by apply elem_of_nil in Hx. }
  unfold Ref.split_commas in *. cbn [foldr].
  destruct (split_commas_cons s) as (p & more & Hp).
  unfold Ref.split_commas in Hp. rewrite Hp in *.
  case_bool_decide as Hc.
  - intros [->|Hin]%elem_of_cons Hx; [by apply elem_of_nil in Hx|].
    destruct (IH _ Hin Hx). split; [by right | done].
  - intros [->|Hin]%elem_of_cons Hx.
    + apply elem_of_cons in Hx as [->|Hx]; [split; [by left | done]|].
      destruct (IH p ltac:(by left) Hx). split; [by right | done].
    + destruct (IH piece ltac:(by right) Hx). split; [by right | done].
Qed.

(** X17. Every name that the director parser gives is clean: it is not
    empty, it neither begins nor ends with a blank, a tab, a line end or a
    period, and it holds no comma, semicolon, slash or vertical bar and no
    letter of the transliteration table. *)
Theorem directors_are_clean (raw : value) (ds : list str) (d : str) :
  parse_directors raw = Ok ds → d ∈ ds →
  d ≠ []
  ∧ (∀ c, head d = Some c → Ref.blank_or_period c = false)
  ∧ (∀ c, last d = Some c → Ref.blank_or_period c = false)
  ∧ Forall (λ c, delimiter c = false ∧ in_table c = false) d.
Proof.
  intros Hp Hd.
  assert (Hs : ∃ s, raw = VStr s).
  { destruct (truthy raw) eqn:Et.
    - destruct raw as [|b|z|s]; [done| | |by exists s];
        rewrite parse_directors_not_str in Hp by done; done.
    - rewrite parse_directors_falsy in Hp by done.
      injection Hp as <-. by apply elem_of_nil in Hd. }
  destruct Hs as [s ->]. rewrite parse_directors_str in Hp. injection Hp as <-.
  apply list_elem_of_In, filter_In in Hd as [Hin Hne].
  apply in_map_iff in Hin as (piece & <- & Hpiece%list_elem_of_In).
  rewrite split_commas_split in Hpiece.
  split; [by destruct (Py.strip_chars _ piece)|].
  pose proof (strip_with_ends (Py.mem [32; 9; 13; 10; 46]%N) piece) as [Hh Hl].
  split; [intros c Hc; rewrite <- mem_blank_or_period; by apply Hh|].
  split; [intros c Hc; rewrite <- mem_blank_or_period; by apply Hl|].
  apply Forall_forall. intros x Hx%rstrip_elem%lstrip_elem.
  destruct (split_commas_elem _ _ _ Hpiece Hx) as [Hx' H44].
  destruct (normalized_elem _ _ Hx' H44) as (Ht & H59 & H47 & H124).
  split.
  - unfold delimiter. by rewrite !orb_false_iff, !N.eqb_neq.
  - pose proof (translate_no_table_letter s) as Hf.
    rewrite Forall_forall in Hf. by apply Hf.
Qed.

End MoreDirectorFacts.

(** ** The further properties at sample inputs *)

Section MoreInstances.

Lemma records_follow_entries_at_echo :
  let source := [Sample.echo; Sample.untitled; Sample.echo] in
  ∃ out, convert (H := ascii_only) source = Ok out
         ∧ length out = length (List.filter (has_title) source)
         ∧ length out ≤ length source.
Proof.
  intros source. eexists. split; [vm_compute; reflexivity|].
  apply (proj2 (records_follow_entries (H := ascii_only) source _
                  ltac:(vm_compute; reflexivity))).
Defined.

Lemma placeholder_fields_fixed_at_echo :
  let m := output_record (u "echo-2019") (u "Echo") 2019 0 [] in
  convert (H := ascii_only) [Sample.echo] = Ok [m] ∧ m ∈ [m] ∧ cast m = [].
Proof.
  intros m.
  assert (Hc : convert (H := ascii_only) [Sample.echo] = Ok [m])
    by (vm_compute; reflexivity).
  assert (Hm : m ∈ [m]) by left.
  split; [exact Hc|]. split; [exact Hm|].
  exact (proj1 (placeholder_fields_fixed (H := ascii_only) _ _ m Hc Hm)).
Defined.

Lemma titles_are_stripped_at_echo :
  let m := output_record (u "echo-2019") (u "Echo") 2019 0 [] in
  convert (H := ascii_only) [Sample.echo] = Ok [m] ∧ m ∈ [m]
  ∧ Py.strip (title m) = title m.
Proof.
  intros m.
  assert (Hc : convert (H := ascii_only) [Sample.echo] = Ok [m])
    by (vm_compute; reflexivity).
  assert (Hm : m ∈ [m]) by left.
  split; [exact Hc|]. split; [exact Hm|].
  exact (proj1 (proj2 (titles_are_stripped (H := ascii_only) _ _ m Hc Hm))).
Defined.

Lemma earlier_records_unchanged_at_echo :
  let out :=
    [ output_record (u "echo-2019") (u "Echo") 2019 0 [];
      output_record (u "echo-2019-2") (u "Echo") 2019 0 [] ] in
  convert (H := ascii_only) ([Sample.echo] ++ [Sample.echo]) = Ok out
  ∧ ∃ out1, convert (H := ascii_only) [Sample.echo] = Ok out1
            ∧ out1 `prefix_of` out.
Proof.
  intros out.
  assert (Hc : convert (H := ascii_only) ([Sample.echo] ++ [Sample.echo])
               = Ok out) by (vm_compute; reflexivity).
  split; [exact Hc|].
  exact (earlier_records_unchanged (H := ascii_only) _ _ out Hc).
Defined.

Lemma convert_succeeds_iff_accepted_at_director_five :
  forallb accepted [Sample.echo; Sample.director_five] = false
  ∧ convert (H := ascii_only) [Sample.echo; Sample.director_five]
    = Raise AttributeError.
Proof.
  assert (Hf : forallb accepted [Sample.echo; Sample.director_five] = false)
    by (vm_compute; reflexivity).
  split; [exact Hf|].
  exact (proj1 (proj2 (convert_succeeds_iff_accepted (H := ascii_only) _)) Hf).
Defined.

Lemma same_base_slugs_differ_at_echo :
  let m1 := output_record (u "echo-2019") (u "Echo") 2019 0 [] in
  let m2 := output_record (u "echo-2019-2") (u "Echo") 2019 0 [] in
  convert (H := ascii_only) [Sample.echo; Sample.echo] = Ok [m1; m2]
  ∧ base_slug (H := ascii_only) m1 = base_slug (H := ascii_only) m2
  ∧ slug m1 ≠ slug m2.
Proof.
  intros m1 m2.
  assert (Hc : convert (H := ascii_only) [Sample.echo; Sample.echo]
               = Ok [m1; m2]) by (vm_compute; reflexivity).
  assert (Hb : base_slug (H := ascii_only) m1 = base_slug (H := ascii_only) m2)
    by (vm_compute; reflexivity).
  split; [exact Hc|]. split; [exact Hb|].
  exact (same_base_slugs_differ (H := ascii_only) _ _ 0 1 m1 m2 Hc
           eq_refl eq_refl ltac:(lia) Hb).
Defined.

Lemma distinct_base_slugs_kept_at_echo :
  let out :=
    [ output_record (u "echo-2019") (u "Echo") 2019 0 [];
      output_record (u "echo-2") (u "Echo 2") 0 0 [] ] in
  convert (H := ascii_only) [Sample.echo; Sample.echo_two] = Ok out
  ∧ NoDup (map (base_slug (H := ascii_only)) out)
  ∧ map slug out = map (base_slug (H := ascii_only)) out.
Proof.
  intros out.
  assert (Hc : convert (H := ascii_only) [Sample.echo; Sample.echo_two]
               = Ok out) by (vm_compute; reflexivity).
  assert (Hn : NoDup (map (base_slug (H := ascii_only)) out)).
  { apply (bool_decide_unpack _). vm_compute. exact I. }
  split; [exact Hc|]. split; [exact Hn|].
  exact (proj1 (distinct_base_slugs_kept (H := ascii_only) _ out Hc Hn)).
Defined.

Lemma transliterate_keeps_other_text_at_john :
  forallb is_ascii (u "John Smith") = true
  ∧ Translit.transliterate (VStr (u "John Smith")) = Ok (u "John Smith").
Proof.
  assert (Ha : forallb is_ascii (u "John Smith") = true)
    by (vm_compute; reflexivity).
  split; [exact Ha|].
  exact (proj2 transliterate_keeps_other_text (u "John Smith") Ha).
Defined.

Lemma transliterate_to_ascii_at_ivan :
  Forall (λ c, is_ascii c = true ∨ in_table c = true) Sample.ivan_petrov
  ∧ ∃ out, Translit.transliterate (VStr Sample.ivan_petrov) = Ok out
           ∧ forallb is_ascii out = true.
Proof.
  assert (Hs : Forall (λ c, is_ascii c = true ∨ in_table c = true)
                 Sample.ivan_petrov).
  { repeat (constructor;
            [first [left; vm_compute; reflexivity
                   |right; vm_compute; reflexivity]|]).
    constructor. }
  split; [exact Hs|].
  exact (transliterate_to_ascii Sample.ivan_petrov Hs).
Defined.

Lemma slugify_url_safe_at_the_movie :
  head (slugify (H := ascii_only) (u "The Movie!!") 2020) = Some 116%N
  ∧ Py.alnum 116 = true.
Proof.
  assert (Hh : head (slugify (H := ascii_only) (u "The Movie!!") 2020)
               = Some 116%N) by (vm_compute; reflexivity).
  split; [exact Hh|].
  exact (proj1 (proj2 (proj2 (slugify_url_safe (H := ascii_only)
                                (u "The Movie!!") 2020))) 116%N Hh).
Defined.

Lemma slugify_tells_years_apart_at_the_movie :
  slugify (H := ascii_only) (u "The Movie!!") (2000 + 20)
  = slugify (H := ascii_only) (u "The Movie!!") 2020
  ∧ (2000 + 20 = 2020)%Z.
Proof.
  assert (Hs : slugify (H := ascii_only) (u "The Movie!!") (2000 + 20)
               = slugify (H := ascii_only) (u "The Movie!!") 2020)
    by (vm_compute; reflexivity).
  split; [exact Hs|].
  exact (slugify_tells_years_apart (H := ascii_only) _ _ _ Hs).
Defined.

Lemma slugify_ignores_case_at_the_movie :
  forallb is_ascii (u "The Movie!!") = true
  ∧ slugify (H := ascii_only) (Py.lower (u "The Movie!!")) 2020
    = slugify (H := ascii_only) (u "The Movie!!") 2020.
Proof.
  assert (Ha : forallb is_ascii (u "The Movie!!") = true)
    by (vm_compute; reflexivity).
  split; [exact Ha|].
  exact (slugify_ignores_case (H := ascii_only) _ 2020 Ha).
Defined.

Lemma parse_int_skips_blanks_at_2005 :
  (Py.int_digits 2005 ≤ Py.int_max_str_digits)%N
  ∧ Forall (λ c, Py.c_isspace c = true) (u " ")
  ∧ Forall (λ c, Py.c_isspace c = true) [9%N; 10%N]
  ∧ parse_int (H := ascii_only)
      (VStr (u " " ++ Py.str_of_int 2005 ++ [9%N; 10%N])) = Ok 2005%Z.
Proof.
  assert (Hd : (Py.int_digits 2005 ≤ Py.int_max_str_digits)%N)
    by (vm_compute; discriminate).
  assert (Hb : Forall (λ c, Py.c_isspace c = true) (u " "))
    by (repeat constructor).
  assert (Ha : Forall (λ c, Py.c_isspace c = true) [9%N; 10%N])
    by (repeat constructor).
  split; [exact Hd|]. split; [exact Hb|]. split; [exact Ha|].
  exact (parse_int_skips_blanks (H := ascii_only) _ _ 2005 Hd Hb Ha).
Defined.

Lemma parse_int_stray_code_point_at_float :
  46%N ∈ u "2005.0"
  ∧ readable (H := ascii_only) 46 = false
  ∧ parse_int (H := ascii_only) (VStr (u "2005.0")) = Ok 0%Z.
Proof.
  assert (Hc : 46%N ∈ u "2005.0").
  { apply (bool_decide_unpack _). vm_compute. exact I. }
  assert (Hr : readable (H := ascii_only) 46 = false) by reflexivity.
  split; [exact Hc|]. split; [exact Hr|].
  exact (parse_int_stray_code_point (H := ascii_only) _ 46%N Hc Hr).
Defined.

Lemma parse_directors_cut_at_semicolon :
  delimiter 59 = true
  ∧ ∃ da db, parse_directors (VStr (u "A. Smith")) = Ok da
             ∧ parse_directors (VStr (u " B. Jones.")) = Ok db
             ∧ parse_directors (VStr (u "A. Smith" ++ 59%N :: u " B. Jones."))
               = Ok (da ++ db).
Proof.
  assert (Hc : delimiter 59 = true) by reflexivity.
  split; [exact Hc|].
  exact (parse_directors_cut (u "A. Smith") (u " B. Jones.") 59%N Hc).
Defined.

Lemma directors_are_clean_at_smith :
  let ds := [u "A. Smith"; u "B. Jones"] in
  parse_directors (VStr (u "A. Smith; B. Jones.")) = Ok ds
  ∧ u "B. Jones" ∈ ds
  ∧ u "B. Jones" ≠ [].
Proof.
  intros ds.
  assert (Hp : parse_directors (VStr (u "A. Smith; B. Jones.")) = Ok ds)
    by (vm_compute; reflexivity).
  assert (Hd : u "B. Jones" ∈ ds) by (right; left).
  split; [exact Hp|]. split; [exact Hd|].
  exact (proj1 (directors_are_clean _ ds _ Hp Hd)).
Defined.

End MoreInstances.
